(** * The value model of the style-expression language

    A shallow embedding of [src/style-spec/expression/values.ts]:
    [validateRGBA], [isValue], [typeOf] and [toString], over a model of the
    JavaScript values these functions can receive, followed by the
    properties the specification states about them. *)

From Stdlib Require Import ZArith List String Ascii Bool Lia DecimalString.
From Stdlib Require Import PrimFloat SpecFloat FloatOps.
Import ListNotations.

Set Warnings "-inexact-float,-register-all".

Local Open Scope list_scope.
Local Open Scope string_scope.

(** ** Completions: a call returns normally or throws *)

Inductive Error := TypeError | AssertionError.

Inductive Completion (A : Type) : Type :=
| Normal (a : A)
| Throw (e : Error).

Arguments Normal {A} a.
Arguments Throw {A} e.

Definition bindC {A B : Type} (c : Completion A) (k : A -> Completion B) : Completion B :=
  match c with
  | Normal a => k a
  | Throw e => Throw e
  end.

Declare Scope completion_scope.
Delimit Scope completion_scope with completion.
Notation "x <~ c ;; k" := (bindC c (fun x => k))
  (at level 61, c at next level, right associativity) : completion_scope.

(** What a call does when its input may hold functions: it completes by the
    code of values.ts and of the built-ins alone, or it calls a function
    value of its input, the one with the given source, and what happens from
    there on is that function's doing. *)
Inductive Outcome (A : Type) : Type :=
| Returns (c : Completion A)
| Invokes (source : string).

Arguments Returns {A} c.
Arguments Invokes {A} source.

Coercion Returns : Completion >-> Outcome.

Definition bindO {A B : Type} (o : Outcome A) (k : A -> Outcome B) : Outcome B :=
  match o with
  | Returns (Normal a) => k a
  | Returns (Throw e) => Returns (Throw e)
  | Invokes source => Invokes source
  end.

Declare Scope outcome_scope.
Delimit Scope outcome_scope with outcome.
Notation "x <~ c ;; k" := (bindO c (fun x => k))
  (at level 61, c at next level, right associativity) : outcome_scope.

(** ** JavaScript values

    The values are finite trees (a cyclic structure is not a Value, and is
    not modelled).  Strings are sequences of 8-bit code units.  An object is
    seen the way values.ts sees it: through its class (for [instanceof]),
    through what its conversion methods return, and through the properties
    that [for ... in] and JSON.stringify enumerate, in enumeration order.

    [JObject props] is a plain object: it inherits from Object.prototype
    and its own properties are enumerable data properties with string keys,
    as in an object literal.  A function is known by its source text only:
    where a built-in would call a function value of the input (a [toString],
    [valueOf] or [toJSON] property of a plain object), the outcome is
    [Invokes].  [JInstance c str json] is an instance of the class [c]:
    [str] is what its [toString()] method returns and [json] is the text
    JSON.stringify produces for it; both are opaque to values.ts.  The five
    wrapper classes are imported by values.ts; [ClsDate] is the built-in
    Date, an object that has no enumerable property.  [JBigInt z] is the
    BigInt of value [z]. *)

Inductive Class :=
| ClsColor | ClsCollator | ClsFormatted | ClsPadding | ClsResolvedImage
| ClsDate.

Inductive JSValue :=
| JUndefined
| JNull
| JBoolean (b : bool)
| JNumber (x : float)
| JString (s : string)
| JSymbol (description : string)
| JFunction (source : string)
| JInstance (c : Class) (str json : string)
| JArray (items : list JSValue)
| JObject (props : list (string * JSValue))
| JBigInt (z : Z).

(** The induction principle that reaches the elements of arrays and the
    property values of objects. *)
Section JSValue_induction.
Variable P : JSValue -> Prop.
Hypothesis P_undefined : P JUndefined.
Hypothesis P_null : P JNull.
Hypothesis P_boolean : forall b, P (JBoolean b).
Hypothesis P_number : forall x, P (JNumber x).
Hypothesis P_string : forall s, P (JString s).
Hypothesis P_symbol : forall d, P (JSymbol d).
Hypothesis P_function : forall src, P (JFunction src).
Hypothesis P_instance : forall c str json, P (JInstance c str json).
Hypothesis P_array : forall items, Forall P items -> P (JArray items).
Hypothesis P_object :
  forall props, Forall (fun kv => P (snd kv)) props -> P (JObject props).
Hypothesis P_bigint : forall z, P (JBigInt z).

Fixpoint JSValue_tree_ind (v : JSValue) : P v :=
  match v with
  | JUndefined => P_undefined
  | JNull => P_null
  | JBoolean b => P_boolean b
  | JNumber x => P_number x
  | JString s => P_string s
  | JSymbol d => P_symbol d
  | JFunction src => P_function src
  | JInstance c str json => P_instance c str json
  | JArray items =>
      P_array items
        ((fix each (l : list JSValue) : Forall P l :=
            match l with
            | [] => Forall_nil P
            | x :: l' => Forall_cons x (JSValue_tree_ind x) (each l')
            end) items)
  | JObject props =>
      P_object props
        ((fix each (l : list (string * JSValue))
            : Forall (fun kv => P (snd kv)) l :=
            match l with
            | [] => Forall_nil _
            | kv :: l' =>
                Forall_cons kv (JSValue_tree_ind (snd kv)) (each l')
            end) props)
  | JBigInt z => P_bigint z
  end.
End JSValue_induction.

(** The [typeof] operator. *)
Definition typeof (v : JSValue) : string :=
  match v with
  | JUndefined => "undefined"
  | JNull => "object"
  | JBoolean _ => "boolean"
  | JNumber _ => "number"
  | JString _ => "string"
  | JSymbol _ => "symbol"
  | JFunction _ => "function"
  | JInstance _ _ _ => "object"
  | JArray _ => "object"
  | JObject _ => "object"
  | JBigInt _ => "bigint"
  end.

Definition Class_eqb (c d : Class) : bool :=
  match c, d with
  | ClsColor, ClsColor | ClsCollator, ClsCollator
  | ClsFormatted, ClsFormatted | ClsPadding, ClsPadding
  | ClsResolvedImage, ClsResolvedImage | ClsDate, ClsDate => true
  | _, _ => false
  end.

(** [v instanceof c]. *)
Definition instanceof (v : JSValue) (c : Class) : bool :=
  match v with
  | JInstance c' _ _ => Class_eqb c' c
  | _ => false
  end.

(** [v === null]. *)
Definition is_null (v : JSValue) : bool :=
  match v with JNull => true | _ => false end.

(** [Array.isArray(v)]. *)
Definition Array_isArray (v : JSValue) : bool :=
  match v with JArray _ => true | _ => false end.

(** [typeof v === 'number' && v >= lo && v <= hi]: the relational operators
    on two Numbers are the IEEE 754 comparisons, false on NaN. *)
Definition number_between (lo hi : float) (v : JSValue) : bool :=
  match v with
  | JNumber x => PrimFloat.leb lo x && PrimFloat.leb x hi
  | _ => false
  end.

(** ** Number::toString (ECMA-262, radix 10)

    The digits are those of the shortest decimal [s * 10^(n-k)] that rounds
    to the double [m * 2^e] (to nearest, ties to even), the closest one when
    several have that length. *)
Module NumberToString.
Local Open Scope Z_scope.

Definition decimal (z : Z) : string :=
  NilZero.string_of_uint (N.to_uint (Z.to_N z)).

Fixpoint zeros (n : nat) : string :=
  match n with
  | O => ""
  | S n' => "0" ++ zeros n'
  end.

(** The least [j], counted up from the one given, with [d <= m * 10^(j+1)]. *)
Fixpoint leading_zeros (fuel : nat) (m d j : Z) : Z :=
  match fuel with
  | O => j
  | S fuel' =>
      if d <=? m * 10 ^ (j + 1) then j
      else leading_zeros fuel' m d (j + 1)
  end.

(** The [n] with [10^(n-1) <= xnum/xden < 10^n]. *)
Definition decimal_exponent (xnum xden : Z) : Z :=
  if xden <=? xnum
  then Z.of_nat (String.length (decimal (xnum / xden)))
  else - leading_zeros 400 xnum xden 0.

(** Tries [k], [k+1], ... digits; [lo] and [hi] bound the reals that round
    to the double, in units of a quarter of [1/xden]. *)
Fixpoint shortest (fuel : nat) (k n xnum xden lo hi : Z) (closed : bool)
  : Z * Z :=
  let p := n - k in
  let up := 10 ^ Z.max p 0 in
  let down := 10 ^ Z.max (- p) 0 in
  let s1 := (xnum * down) / (xden * up) in
  let s2 := s1 + 1 in
  let inside s :=
    let c := s * 4 * xden * up in
    if closed then (lo * down <=? c) && (c <=? hi * down)
    else (lo * down <? c) && (c <? hi * down) in
  let dist s := Z.abs (s * 4 * xden * up - 4 * xnum * down) in
  let pick :=
    match inside s1, inside s2 with
    | true, true =>
        if dist s1 <? dist s2 then Some s1
        else if dist s2 <? dist s1 then Some s2
        else Some (if Z.even s1 then s1 else s2)
    | true, false => Some s1
    | false, true => Some s2
    | false, false => None
    end in
  match pick, fuel with
  | Some s, _ => if s =? 10 ^ k then (1, n + 1) else (s, n)
  | None, O => (s1, n)
  | None, S fuel' => shortest fuel' (k + 1) n xnum xden lo hi closed
  end.

Definition finite (m : positive) (e : Z) : string :=
  let xnum := if 0 <=? e then Z.pos m * 2 ^ e else Z.pos m in
  let xden := if 0 <=? e then 1 else 2 ^ (- e) in
  let ulp := if 0 <=? e then 2 ^ e else 1 in
  let boundary := (Z.pos m =? 2 ^ 52) && (-1074 <? e) in
  let lo := 4 * xnum - (if boundary then 1 else 2) * ulp in
  let hi := 4 * xnum + 2 * ulp in
  let n0 := decimal_exponent xnum xden in
  let '(s, n) := shortest 17 1 n0 xnum xden lo hi (Z.even (Z.pos m)) in
  let ds := decimal s in
  let k := Z.of_nat (String.length ds) in
  let exponent :=
    (if n - 1 <? 0 then "e-" else "e+") ++ decimal (Z.abs (n - 1)) in
  if (k <=? n) && (n <=? 21) then ds ++ zeros (Z.to_nat (n - k))
  else if (0 <? n) && (n <=? 21) then
    substring 0 (Z.to_nat n) ds ++ "."
      ++ substring (Z.to_nat n) (Z.to_nat (k - n)) ds
  else if (-6 <? n) && (n <=? 0) then "0." ++ zeros (Z.to_nat (- n)) ++ ds
  else if k =? 1 then ds ++ exponent
  else substring 0 1 ds ++ "." ++ substring 1 (Z.to_nat (k - 1)) ds
         ++ exponent.

Definition of_spec_float (x : spec_float) : string :=
  match x with
  | S754_nan => "NaN"
  | S754_zero _ => "0"
  | S754_infinity s => if s then "-Infinity" else "Infinity"
  | S754_finite s m e => (if s then "-" else "") ++ finite m e
  end.
End NumberToString.

Definition Number_toString (x : float) : string :=
  NumberToString.of_spec_float (Prim2SF x).

(** [Number.isFinite] on a Number. *)
Definition Number_isFinite (x : float) : bool :=
  match Prim2SF x with
  | S754_zero _ | S754_finite _ _ _ => true
  | S754_infinity _ | S754_nan => false
  end.

(** ** ToString and Array.prototype.join *)

(** [Get(O, key)] on the own properties of a plain object. *)
Fixpoint lookup (key : string) (props : list (string * JSValue))
  : option JSValue :=
  match props with
  | [] => None
  | (k, v) :: rest => if k =? key then Some v else lookup key rest
  end.

(** BigInt::toString, radix 10. *)
Definition BigInt_toString (z : Z) : string :=
  if Z.ltb z 0 then "-" ++ NumberToString.decimal (Z.opp z)
  else NumberToString.decimal z.

(** OrdinaryToPrimitive with hint string on a plain object.  An object
    without a [toString] of its own inherits Object.prototype.toString.  One
    with a [toString] of its own that is a function has it called; if it is
    not callable, [valueOf] is tried: one of its own that is a function is
    called, and otherwise (its own and not callable, or the inherited one,
    which returns the object) no primitive is obtained, a TypeError. *)
Definition object_to_string (props : list (string * JSValue)) : Outcome string :=
  match lookup "toString" props with
  | None => Normal "[object Object]"
  | Some (JFunction source) => Invokes source
  | Some _ =>
      match lookup "valueOf" props with
      | Some (JFunction source) => Invokes source
      | _ => Throw TypeError
      end
  end.

Section Join.
Variable ToString : JSValue -> Outcome string.

(** What [join] makes of one element: undefined and null give the empty
    string. *)
Definition element_text (v : JSValue) : Outcome string :=
  match v with
  | JUndefined | JNull => Normal ""
  | _ => ToString v
  end.

Fixpoint element_texts (items : list JSValue) : Outcome (list string) :=
  match items with
  | [] => Normal []
  | item :: rest =>
      (s <~ element_text item ;;
       ss <~ element_texts rest ;;
       Normal (s :: ss))%outcome
  end.

Definition join_with (items : list JSValue) (separator : string)
  : Outcome string :=
  (ss <~ element_texts items ;; Normal (String.concat separator ss))%outcome.
End Join.

(** The abstract operation ToString.  A Symbol cannot be converted (a
    TypeError); an array converts through [join(",")]; a plain object
    converts through [object_to_string]; a function gives its source text;
    a class instance gives what its own [toString()] gives. *)
Fixpoint ToString (v : JSValue) : Outcome string :=
  match v with
  | JUndefined => Normal "undefined"
  | JNull => Normal "null"
  | JBoolean b => Normal (if b then "true" else "false")
  | JNumber x => Normal (Number_toString x)
  | JString s => Normal s
  | JSymbol _ => Throw TypeError
  | JFunction source => Normal source
  | JInstance _ str _ => Normal str
  | JArray items => join_with ToString items ","
  | JObject props => object_to_string props
  | JBigInt z => Normal (BigInt_toString z)
  end.

(** [items.join(separator)]. *)
Definition join (items : list JSValue) (separator : string) : Outcome string :=
  join_with ToString items separator.

(** ** JSON.stringify *)

Definition dquote : string := String (ascii_of_nat 34) "".
Definition backslash : string := String (ascii_of_nat 92) "".

Definition hex_digit (n : nat) : string :=
  substring n 1 "0123456789abcdef".

(** QuoteJSONString, one code unit at a time. *)
Definition quote_code_unit (c : ascii) : string :=
  let n := nat_of_ascii c in
  if Nat.eqb n 34 then backslash ++ dquote
  else if Nat.eqb n 92 then backslash ++ backslash
  else if Nat.eqb n 8 then backslash ++ "b"
  else if Nat.eqb n 12 then backslash ++ "f"
  else if Nat.eqb n 10 then backslash ++ "n"
  else if Nat.eqb n 13 then backslash ++ "r"
  else if Nat.eqb n 9 then backslash ++ "t"
  else if Nat.ltb n 32 then
    backslash ++ "u00" ++ hex_digit (Nat.div n 16) ++ hex_digit (Nat.modulo n 16)
  else String c "".

Fixpoint quote_code_units (s : string) : string :=
  match s with
  | EmptyString => ""
  | String c s' => quote_code_unit c ++ quote_code_units s'
  end.

Definition QuoteJSONString (s : string) : string :=
  dquote ++ quote_code_units s ++ dquote.

Section MapOutcome.
Context {A B : Type} (f : A -> Outcome B).

(** One element after the other; the first that does not return ends it. *)
Fixpoint mapO (l : list A) : Outcome (list B) :=
  match l with
  | [] => Normal []
  | x :: rest =>
      (y <~ f x ;;
       ys <~ mapO rest ;;
       Normal (y :: ys))%outcome
  end.
End MapOutcome.

(** SerializeJSONProperty: [None] is the undefined result, which an array
    shows as null and an object leaves out with its key.  A [toJSON]
    property that is a function is called first; a BigInt has none and
    cannot be serialized, a TypeError. *)
Fixpoint SerializeJSONProperty (v : JSValue) : Outcome (option string) :=
  match v with
  | JUndefined | JSymbol _ | JFunction _ => Normal None
  | JNull => Normal (Some "null")
  | JBoolean b => Normal (Some (if b then "true" else "false"))
  | JNumber x =>
      Normal (Some (if Number_isFinite x then Number_toString x else "null"))
  | JString s => Normal (Some (QuoteJSONString s))
  | JInstance _ _ json => Normal (Some json)
  | JArray items =>
      (texts <~ mapO (fun item =>
                        (text <~ SerializeJSONProperty item ;;
                         Normal (match text with
                                 | Some s => s
                                 | None => "null"
                                 end))%outcome) items ;;
       Normal (Some ("[" ++ String.concat "," texts ++ "]")))%outcome
  | JObject props =>
      match lookup "toJSON" props with
      | Some (JFunction source) => Invokes source
      | _ =>
          (members <~ mapO (fun kv =>
                              (text <~ SerializeJSONProperty (snd kv) ;;
                               Normal (match text with
                                       | Some s =>
                                           [QuoteJSONString (fst kv) ++ ":" ++ s]
                                       | None => []
                                       end))%outcome) props ;;
           Normal (Some ("{" ++ String.concat "," (List.concat members)
                             ++ "}")))%outcome
      end
  | JBigInt _ => Throw TypeError
  end.

Definition JSON_stringify (v : JSValue) : Outcome JSValue :=
  (text <~ SerializeJSONProperty v ;;
   Normal (match text with
           | Some s => JString s
           | None => JUndefined
           end))%outcome.

(** ** Type descriptors (./types)

    Modelled from the spec: the module ./types, which declares the type
    descriptors and the constructor [array], is not among the sources.  The
    spec has one descriptor per non-parametric kind, created once and
    compared by identity, and has [array(itemType, N)] build a descriptor of
    its own at every call, so that two array types built independently are
    never identical.  A descriptor is an object: [ArrayType ref itemType N]
    is the array descriptor allocated as object number [ref]. *)

Inductive Kind :=
| KNull | KNumber | KString | KBoolean | KColor | KObject | KValue
| KCollator | KFormatted | KResolvedImage | KPadding.

Inductive Ty :=
| Singleton (kind : Kind)
| ArrayType (ref : nat) (itemType : Ty) (N : option nat).

Definition NullType := Singleton KNull.
Definition NumberType := Singleton KNumber.
Definition StringType := Singleton KString.
Definition BooleanType := Singleton KBoolean.
Definition ColorType := Singleton KColor.
Definition ObjectType := Singleton KObject.
Definition ValueType := Singleton KValue.
Definition CollatorType := Singleton KCollator.
Definition FormattedType := Singleton KFormatted.
Definition ResolvedImageType := Singleton KResolvedImage.
Definition PaddingType := Singleton KPadding.

Definition Kind_eqb (j k : Kind) : bool :=
  match j, k with
  | KNull, KNull | KNumber, KNumber | KString, KString
  | KBoolean, KBoolean | KColor, KColor | KObject, KObject
  | KValue, KValue | KCollator, KCollator | KFormatted, KFormatted
  | KResolvedImage, KResolvedImage | KPadding, KPadding => true
  | _, _ => false
  end.

(** [t === u] on two descriptors: the same object. *)
Definition identical (t u : Ty) : bool :=
  match t, u with
  | Singleton j, Singleton k => Kind_eqb j k
  | ArrayType r _ _, ArrayType r' _ _ => Nat.eqb r r'
  | _, _ => false
  end.

(** Equality of what two descriptors describe, whichever objects they are. *)
Fixpoint same_structure (t u : Ty) : bool :=
  match t, u with
  | Singleton j, Singleton k => Kind_eqb j k
  | ArrayType _ it n, ArrayType _ iu m =>
      same_structure it iu
      && match n, m with
         | Some a, Some b => Nat.eqb a b
         | None, None => true
         | _, _ => false
         end
  | _, _ => false
  end.

(** ** Calls that allocate

    The state is the number of descriptors allocated so far, which is the
    reference the next one gets. *)

Definition Heap := nat.

Definition M (A : Type) : Type := Heap -> Completion A * Heap.

Definition ret {A : Type} (a : A) : M A := fun h => (Normal a, h).

Definition throw {A : Type} (e : Error) : M A := fun h => (Throw e, h).

Definition bind {A B : Type} (c : M A) (k : A -> M B) : M B :=
  fun h =>
    match c h with
    | (Normal a, h') => k a h'
    | (Throw e, h') => (Throw e, h')
    end.

Declare Scope alloc_scope.
Delimit Scope alloc_scope with alloc.
Notation "x <- c ;; k" := (bind c (fun x => k))
  (at level 61, c at next level, right associativity) : alloc_scope.

(** Modelled from the spec: [array(itemType, N)] of ./types, a new
    descriptor at every call. *)
Definition array (itemType : Ty) (N : option nat) : M Ty :=
  fun h => (Normal (ArrayType h itemType N), S h).

(** ** values.ts *)

(** [validateRGBA(r, g, b, a?)]; an omitted [a] is [JUndefined].  The result
    is [JNull] or the message. *)
Definition validateRGBA (r g b a : JSValue) : Outcome JSValue :=
  if negb (number_between 0 255 r
           && number_between 0 255 g
           && number_between 0 255 b)
  then
    let value := if typeof a =? "number" then [r; g; b; a] else [r; g; b] in
    (tuple <~ join value ", " ;;
     Normal (JString ("Invalid rgba value [" ++ tuple
                        ++ "]: 'r', 'g', and 'b' must be between 0 and 255.")))%outcome
  else if negb ((typeof a =? "undefined") || number_between 0 1 a)
  then
    (tuple <~ join [r; g; b; a] ", " ;;
     Normal (JString ("Invalid rgba value [" ++ tuple
                        ++ "]: 'a' must be between 0 and 1.")))%outcome
  else Normal JNull.

(** [isValue(mixed)].  Each [for] loop returns false at the first element
    that is not a Value and true when there is none.  A class instance that
    is none of the five wrappers reaches the last test, [typeof mixed ===
    'object'], and its [for ... in] loop finds no key. *)
Fixpoint isValue (mixed : JSValue) : bool :=
  match mixed with
  | JNull => true
  | JString _ => true
  | JBoolean _ => true
  | JNumber _ => true
  | JInstance c _ _ =>
      if Class_eqb c ClsColor then true
      else if Class_eqb c ClsCollator then true
      else if Class_eqb c ClsFormatted then true
      else if Class_eqb c ClsPadding then true
      else if Class_eqb c ClsResolvedImage then true
      else true
  | JArray items => forallb isValue items
  | JObject props => forallb (fun kv => isValue (snd kv)) props
  | JUndefined | JSymbol _ | JFunction _ | JBigInt _ => false
  end.

Section TypeOfLoop.
Variable typeOf : JSValue -> M Ty.

(** The [for] loop of [typeOf] from the element it stands at;
    [itemType] is [None] while the variable is undefined. *)
Fixpoint typeOf_loop (items : list JSValue) (itemType : option Ty)
  : M (option Ty) :=
  match items with
  | [] => ret itemType
  | item :: rest =>
      (t <- typeOf item ;;
       match itemType with
       | None => typeOf_loop rest (Some t)
       | Some adopted =>
           if identical adopted t then typeOf_loop rest itemType
           else ret (Some ValueType)
       end)%alloc
  end.
End TypeOfLoop.

(** [typeOf(value)].  The last branch asserts [typeof value === 'object']. *)
Fixpoint typeOf (value : JSValue) : M Ty :=
  match value with
  | JNull => ret NullType
  | JString _ => ret StringType
  | JBoolean _ => ret BooleanType
  | JNumber _ => ret NumberType
  | JInstance c _ _ =>
      if Class_eqb c ClsColor then ret ColorType
      else if Class_eqb c ClsCollator then ret CollatorType
      else if Class_eqb c ClsFormatted then ret FormattedType
      else if Class_eqb c ClsPadding then ret PaddingType
      else if Class_eqb c ClsResolvedImage then ret ResolvedImageType
      else ret ObjectType
  | JArray items =>
      let length := List.length items in
      (itemType <- typeOf_loop typeOf items None ;;
       array (match itemType with
              | Some t => t
              | None => ValueType
              end) (Some length))%alloc
  | JObject _ => ret ObjectType
  | JUndefined | JSymbol _ | JFunction _ | JBigInt _ => throw AssertionError
  end.

(** [toString(value)]; the result is a string, or [JUndefined] where
    JSON.stringify gives undefined. *)
Definition toString (value : JSValue) : Outcome JSValue :=
  let type := typeof value in
  if is_null value then Normal (JString "")
  else if (type =? "string") || (type =? "number") || (type =? "boolean")
  then (s <~ ToString value ;; Normal (JString s))%outcome
  else if instanceof value ClsColor || instanceof value ClsFormatted
          || instanceof value ClsPadding || instanceof value ClsResolvedImage
  then
    match value with
    | JInstance _ str _ => Normal (JString str)
    | _ => Throw TypeError
    end
  else JSON_stringify value.

(** ** The vocabulary of the specification *)

(** [x] lies in the closed range from [lo] to [hi]. *)
Definition in_closed_range (lo hi x : float) : Prop :=
  PrimFloat.leb lo x = true /\ PrimFloat.leb x hi = true.

(** Rule 1 for one channel: a number from 0 to 255. *)
Definition channel_ok (v : JSValue) : Prop :=
  exists x, v = JNumber x /\ in_closed_range 0 255 x.

(** Rule 2: [a] is omitted, or a number from 0 to 1. *)
Definition alpha_ok (a : JSValue) : Prop :=
  a = JUndefined \/ exists x, a = JNumber x /\ in_closed_range 0 1 x.

(** The two diagnostics, around the echoed tuple. *)
Definition rgb_message (tuple : string) : string :=
  "Invalid rgba value [" ++ tuple
    ++ "]: 'r', 'g', and 'b' must be between 0 and 255.".

Definition alpha_message (tuple : string) : string :=
  "Invalid rgba value [" ++ tuple ++ "]: 'a' must be between 0 and 1.".



(** The five wrapper kinds. *)
Definition is_wrapper (c : Class) : bool :=
  match c with
  | ClsColor | ClsCollator | ClsFormatted | ClsPadding | ClsResolvedImage => true
  | ClsDate => false
  end.

(** The Value grammar of the data model, following the spec's words.
    [keyed c] says whether an instance of the class [c] that is no wrapper
    counts as a keyed mapping.  The spec counts none: [Grammar (fun _ =>
    false)] is its grammar, where only a plain object is a keyed mapping. *)
Inductive Grammar (keyed : Class -> bool) : JSValue -> Prop :=
| Grammar_null : Grammar keyed JNull
| Grammar_string s : Grammar keyed (JString s)
| Grammar_boolean b : Grammar keyed (JBoolean b)
| Grammar_number x : Grammar keyed (JNumber x)
| Grammar_wrapper c str json :
    is_wrapper c = true -> Grammar keyed (JInstance c str json)
| Grammar_array items :
    Forall (Grammar keyed) items -> Grammar keyed (JArray items)
| Grammar_mapping props :
    Forall (fun kv => Grammar keyed (snd kv)) props ->
    Grammar keyed (JObject props)
| Grammar_keyed_instance c str json :
    keyed c = true -> Grammar keyed (JInstance c str json).

Definition ValueGrammar : JSValue -> Prop := Grammar (fun _ => false).

(** The homogeneity merge, following the spec's words: the first element's
    type is adopted; a later element whose type is identical to the adopted
    one is passed over; the first one whose type is not makes the item type
    the top type, and the elements after it are not looked at; no element at
    all gives the top type. *)
Fixpoint merge_rest (adopted : Ty) (rest : list JSValue) : M Ty :=
  match rest with
  | [] => ret adopted
  | item :: rest' =>
      (t <- typeOf item ;;
       if identical adopted t then merge_rest adopted rest'
       else ret ValueType)%alloc
  end.

Definition homogeneity_merge (items : list JSValue) : M Ty :=
  match items with
  | [] => ret ValueType
  | first :: rest => (t <- typeOf first ;; merge_rest t rest)%alloc
  end.

(** Two Numbers that are the same value, the two zeros taken as one and NaN
    as equal to itself. *)
Definition same_number (x y : float) : bool :=
  match Prim2SF x, Prim2SF y with
  | S754_nan, S754_nan => true
  | S754_zero _, S754_zero _ => true
  | S754_infinity s, S754_infinity s' => Bool.eqb s s'
  | S754_finite s m e, S754_finite s' m' e' =>
      Bool.eqb s s' && Pos.eqb m m' && Z.eqb e e'
  | _, _ => false
  end.

Section Pairwise.
Context {A B : Type} (f : A -> B -> bool).

Fixpoint all2 (l : list A) (l' : list B) : bool :=
  match l, l' with
  | [], [] => true
  | x :: r, y :: r' => f x y && all2 r r'
  | _, _ => false
  end.
End Pairwise.

(** Structural equality of two values.  Arrays are equal element by
    element.  With [ordered = false] two objects are equal when they have as
    many keys and equal values under each key, in whatever order the keys
    were inserted (the data model's equality); with [ordered = true] their
    keys must also come in the same order. *)
Fixpoint structurally_equal (ordered : bool) (v w : JSValue) {struct v} : bool :=
  match v, w with
  | JUndefined, JUndefined => true
  | JNull, JNull => true
  | JBoolean b, JBoolean b' => Bool.eqb b b'
  | JNumber x, JNumber y => same_number x y
  | JString s, JString s' => s =? s'
  | JSymbol d, JSymbol d' => d =? d'
  | JFunction f, JFunction f' => f =? f'
  | JInstance c str json, JInstance c' str' json' =>
      Class_eqb c c' && (str =? str') && (json =? json')
  | JArray items, JArray items' =>
      all2 (structurally_equal ordered) items items'
  | JObject props, JObject props' =>
      if ordered then
        all2 (fun kv kv' =>
                (fst kv =? fst kv')
                && structurally_equal ordered (snd kv) (snd kv'))
             props props'
      else
        Nat.eqb (List.length props) (List.length props')
        && forallb (fun kv =>
                      match lookup (fst kv) props' with
                      | Some y => structurally_equal ordered (snd kv) y
                      | None => false
                      end) props
  | JBigInt z, JBigInt z' => Z.eqb z z'
  | _, _ => false
  end.

(** No key twice in one object, at any depth. *)
Fixpoint keys_unique (keys : list string) : bool :=
  match keys with
  | [] => true
  | k :: rest => negb (existsb (String.eqb k) rest) && keys_unique rest
  end.

Fixpoint unique_keys (v : JSValue) : bool :=
  match v with
  | JArray items => forallb unique_keys items
  | JObject props =>
      keys_unique (map fst props)
      && forallb (fun kv => unique_keys (snd kv)) props
  | _ => true
  end.

(** A well-formed Value: it passes [isValue] and its objects have unique
    keys. *)
Definition well_formed (v : JSValue) : bool := isValue v && unique_keys v.

(** Where the reference of an array descriptor lies; a singleton has none. *)
Definition allocated_from (h : Heap) (t : Ty) : Prop :=
  match t with
  | ArrayType r _ _ => h <= r
  | Singleton _ => True
  end.

Definition allocated_before (h : Heap) (t : Ty) : Prop :=
  match t with
  | ArrayType r _ _ => r < h
  | Singleton _ => True
  end.

(** Two completions agree: both throw, or both return, related results. *)
Definition agree {A : Type} (R : A -> A -> Prop) (c d : Completion A) : Prop :=
  match c, d with
  | Normal a, Normal b => R a b
  | Throw _, Throw _ => True
  | _, _ => False
  end.

Definition alike (t u : Ty) : Prop := same_structure t u = true.

Definition item_or_value (itemType : option Ty) : Ty :=
  match itemType with
  | Some t => t
  | None => ValueType
  end.

(** The adopted types of two runs of the loop, standing at heaps [h], [h']. *)
Definition adopted_alike (h h' : Heap) (o o' : option Ty) : Prop :=
  match o, o' with
  | None, None => True
  | Some a, Some b =>
      alike a b /\ allocated_before h a /\ allocated_before h' b
  | _, _ => False
  end.


(** The values for which JSON.stringify has no text: [typeof] says
    undefined, symbol or function. *)
Definition without_json_text (v : JSValue) : bool :=
  (typeof v =? "undefined") || (typeof v =? "symbol")
  || (typeof v =? "function").


(** ** The interaction layer (js/ui/interaction.js)

    The event handlers of [Interaction.prototype], as a machine that takes
    one DOM event, or one timer expiry, at a time.  An event is seen through
    what the handlers read of it: [mousePos] is what
    [DOM.mousePos(this._el, e)] returns, [touches] is the length of
    [e.touches] ([None] when the event has none), and [path] lists
    [e.toElement || e.target] and then its [parentNode]s, innermost first
    (empty when both are missing).  The points, [this._map.unproject] and the
    [equals] method of a point are the host's; a listener that [map.fire]
    calls does not dispatch a DOM event to the element itself.  The 300 ms
    of the tap timer are not modelled: the expiry of a pending timer is an
    input that may come at any moment. *)
Module Interaction.
Section Model.
Variables Point LngLat : Type.
(** [this._map.unproject(pos)]. *)
Variable unproject : Point -> LngLat.
(** [pos.equals(other)], [other] being [None] when it is undefined. *)
Variable equals : Point -> option Point -> Completion bool.

Definition Node := nat.

Record Event := {
  mousePos : Point;
  touches : option nat;
  path : list Node
}.

(** What a handler does to the outside: [this._map.fire(type, {lngLat,
    point, originalEvent})], [e.preventDefault()], or an exception that
    leaves the listener. *)
Inductive Output :=
| fire (type : string) (lngLat : LngLat) (point : Point) (originalEvent : Event)
| preventDefault (e : Event)
| uncaught (error : Error).

(** The fields of the Interaction ([_contextMenuFired] by its truth value),
    with the host's timers: the pending ones and the identifier the next
    [setTimeout] returns, a positive integer. *)
Record Machine := {
  _el : Node;
  _startPos : option Point;
  _contextMenuFired : bool;
  _tapped : option positive;
  pending : list positive;
  next_timer : positive
}.

(** The fields the constructor leaves undefined. *)
Definition create (el : Node) (next : positive) : Machine :=
  {| _el := el; _startPos := None; _contextMenuFired := false;
     _tapped := None; pending := []; next_timer := next |}.

Definition _fireEvent (type : string) (e : Event) : Output :=
  let pos := mousePos e in
  fire type (unproject pos) pos e.

Definition _onMouseDown (m : Machine) (e : Event) : Machine * list Output :=
  ({| _el := _el m; _startPos := Some (mousePos e);
      _contextMenuFired := _contextMenuFired m; _tapped := _tapped m;
      pending := pending m; next_timer := next_timer m |},
   [_fireEvent "mousedown" e]).

Definition _onMouseUp (m : Machine) (e : Event)
           (dragRotate_active dragPan_active : bool) : Machine * list Output :=
  let fired :=
    if _contextMenuFired m && negb dragRotate_active && negb dragPan_active
    then [_fireEvent "contextmenu" e]
    else [] in
  ({| _el := _el m; _startPos := _startPos m;
      _contextMenuFired := false; _tapped := _tapped m;
      pending := pending m; next_timer := next_timer m |},
   fired ++ [_fireEvent "mouseup" e])%list.

Definition _onTouchStart (m : Machine) (e : Event) : Machine * list Output :=
  match touches e with
  | None => (m, [])
  | Some length =>
      if Nat.ltb 1 length then (m, [])
      else
        match _tapped m with
        | None =>
            (* setTimeout(this._onTimeout, 300) *)
            ({| _el := _el m; _startPos := _startPos m;
                _contextMenuFired := _contextMenuFired m;
                _tapped := Some (next_timer m);
                pending := next_timer m :: pending m;
                next_timer := Pos.succ (next_timer m) |},
             [])
        | Some id =>
            (* clearTimeout(this._tapped) *)
            ({| _el := _el m; _startPos := _startPos m;
                _contextMenuFired := _contextMenuFired m;
                _tapped := None;
                pending := filter (fun t => negb (Pos.eqb t id)) (pending m);
                next_timer := next_timer m |},
             [_fireEvent "dblclick" e])
        end
  end.

Definition _onTimeout (m : Machine) : Machine :=
  {| _el := _el m; _startPos := _startPos m;
     _contextMenuFired := _contextMenuFired m; _tapped := None;
     pending := pending m; next_timer := next_timer m |}.

(** The [while] loop of [_onMouseMove]: up from the target until the
    element or the end of the chain. *)
Fixpoint climb (el : Node) (chain : list Node) : option Node :=
  match chain with
  | [] => None
  | target :: parents =>
      if Nat.eqb target el then Some target else climb el parents
  end.

Definition _onMouseMove (m : Machine) (e : Event)
           (dragPan_active dragRotate_active : bool) : Machine * list Output :=
  if dragPan_active || dragRotate_active then (m, [])
  else
    match climb (_el m) (path e) with
    | Some target =>
        if Nat.eqb target (_el m) then (m, [_fireEvent "mousemove" e])
        else (m, [])
    | None => (m, [])
    end.

Definition _onClick (m : Machine) (e : Event) : Machine * list Output :=
  let pos := mousePos e in
  match equals pos (_startPos m) with
  | Normal true => (m, [_fireEvent "click" e])
  | Normal false => (m, [])
  | Throw error => (m, [uncaught error])
  end.

Definition _onDblClick (m : Machine) (e : Event) : Machine * list Output :=
  (m, [_fireEvent "dblclick" e; preventDefault e]).

Definition _onContextMenu (m : Machine) : Machine * list Output :=
  ({| _el := _el m; _startPos := _startPos m;
      _contextMenuFired := true; _tapped := _tapped m;
      pending := pending m; next_timer := next_timer m |},
   []).

(** What reaches the machine: the seven events [enable] listens to, each
    with the [active] flags of the drag handlers that its listener reads,
    and the expiry of a timer. *)
Inductive Input :=
| mousedown (e : Event)
| mouseup (e : Event) (dragRotate_active dragPan_active : bool)
| touchstart (e : Event)
| click (e : Event)
| mousemove (e : Event) (dragPan_active dragRotate_active : bool)
| dblclick (e : Event)
| contextmenu
| timeout (id : positive).

(** The host runs the callback of a timer only while it is pending, and
    then forgets the timer. *)
Definition step (m : Machine) (i : Input) : Machine * list Output :=
  match i with
  | mousedown e => _onMouseDown m e
  | mouseup e rotate pan => _onMouseUp m e rotate pan
  | touchstart e => _onTouchStart m e
  | click e => _onClick m e
  | mousemove e pan rotate => _onMouseMove m e pan rotate
  | dblclick e => _onDblClick m e
  | contextmenu => _onContextMenu m
  | timeout id =>
      if existsb (Pos.eqb id) (pending m)
      then
        (_onTimeout
           {| _el := _el m; _startPos := _startPos m;
              _contextMenuFired := _contextMenuFired m; _tapped := _tapped m;
              pending := filter (fun t => negb (Pos.eqb t id)) (pending m);
              next_timer := next_timer m |},
         [])
      else (m, [])
  end.

Fixpoint run (m : Machine) (inputs : list Input) : Machine * list Output :=
  match inputs with
  | [] => (m, [])
  | i :: rest =>
      let '(m1, out1) := step m i in
      let '(m2, out2) := run m1 rest in
      (m2, (out1 ++ out2)%list)
  end.

(** The pending timers are the one [_tapped] names, if any. *)
Definition timers_follow_tapped (m : Machine) : Prop :=
  pending m = match _tapped m with
              | Some id => [id]
              | None => []
              end.

(** A touch event [_onTouchStart] does not ignore. *)
Definition one_finger (e : Event) : Prop :=
  exists length, touches e = Some length /\ length <= 1.

(** Every second element of a list; with [armed] the first one counts as a
    second. *)
Fixpoint every_second (armed : bool) (es : list Event) : list Event :=
  match es with
  | [] => []
  | e :: rest => if armed then e :: every_second false rest
                 else every_second true rest
  end.

Definition fired_as (type : string) (o : Output) : bool :=
  match o with
  | fire type' _ _ _ => type' =? type
  | _ => false
  end.

Definition is_contextmenu (i : Input) : bool :=
  match i with
  | contextmenu => true
  | _ => false
  end.

(** The position of the last [mousedown] among the inputs, [start] if there
    is none. *)
Fixpoint last_mousedown (start : option Point) (inputs : list Input)
  : option Point :=
  match inputs with
  | [] => start
  | mousedown e :: rest => last_mousedown (Some (mousePos e)) rest
  | _ :: rest => last_mousedown start rest
  end.
End Model.

Arguments mousePos {Point} e.
Arguments touches {Point} e.
Arguments path {Point} e.
Arguments fire {Point LngLat} type lngLat point originalEvent.
Arguments preventDefault {Point LngLat} e.
Arguments uncaught {Point LngLat} error.
Arguments _el {Point} m.
Arguments _startPos {Point} m.
Arguments _contextMenuFired {Point} m.
Arguments _tapped {Point} m.
Arguments pending {Point} m.
Arguments next_timer {Point} m.
Arguments create {Point} el next.
Arguments _fireEvent {Point LngLat} unproject type e.
Arguments mousedown {Point} e.
Arguments mouseup {Point} e dragRotate_active dragPan_active.
Arguments touchstart {Point} e.
Arguments click {Point} e.
Arguments mousemove {Point} e dragPan_active dragRotate_active.
Arguments dblclick {Point} e.
Arguments contextmenu {Point}.
Arguments timeout {Point} id.
Arguments step {Point LngLat} unproject equals m i.
Arguments run {Point LngLat} unproject equals m inputs.
Arguments timers_follow_tapped {Point} m.
Arguments one_finger {Point} e.
Arguments every_second {Point} armed es.
Arguments fired_as {Point LngLat} type o.
Arguments is_contextmenu {Point} i.
Arguments last_mousedown {Point} start inputs.

(** A concrete host for examples: points are pairs of integers, [unproject]
    keeps the point, and [equals] compares the coordinates and throws on an
    undefined argument. *)
Definition pixel_equals (p : Z * Z) (other : option (Z * Z)) : Completion bool :=
  match other with
  | Some q => Normal (Z.eqb (fst p) (fst q) && Z.eqb (snd p) (snd q))
  | None => Throw TypeError
  end.

Definition tap_at (x y : Z) : Event (Z * Z) :=
  {| mousePos := (x, y); touches := Some 1; path := [7; 3; 0] |}.
End Interaction.

(** * Properties *)

(** ** validateRGBA *)

Lemma number_between_spec (lo hi : float) (v : JSValue) :
  number_between lo hi v = true <->
  exists x, v = JNumber x /\ in_closed_range lo hi x.
Proof.
  unfold in_closed_range. split.
  - destruct v; simpl; try discriminate.
    intros H. apply andb_true_iff in H. eauto.
  - intros (x & -> & Hlo & Hhi). simpl. now rewrite Hlo, Hhi.
Qed.

Lemma channels_spec (r g b : JSValue) :
  number_between 0 255 r && number_between 0 255 g && number_between 0 255 b
  = true <-> channel_ok r /\ channel_ok g /\ channel_ok b.
Proof.
  unfold channel_ok. rewrite !andb_true_iff, !number_between_spec. tauto.
Qed.

Lemma alpha_spec (a : JSValue) :
  (typeof a =? "undefined") || number_between 0 1 a = true <-> alpha_ok a.
Proof.
  unfold alpha_ok. rewrite orb_true_iff, number_between_spec. split.
  - intros [H | H]; [left | now right].
    destruct a; simpl in H; try discriminate; reflexivity.
  - intros [-> | H]; [now left | now right].
Qed.






(** The three ways out of [validateRGBA]. *)
Lemma validateRGBA_rgb_branch (r g b a : JSValue) :
  ~ (channel_ok r /\ channel_ok g /\ channel_ok b) ->
  validateRGBA r g b a =
  bindO (join (if typeof a =? "number" then [r; g; b; a] else [r; g; b]) ", ")
        (fun tuple => Normal (JString (rgb_message tuple))).
Proof.
  intros H. unfold validateRGBA.
  destruct (number_between 0 255 r && number_between 0 255 g
            && number_between 0 255 b) eqn:E.
  - apply channels_spec in E. contradiction.
  - reflexivity.
Qed.

Lemma validateRGBA_alpha_branch (r g b a : JSValue) :
  channel_ok r /\ channel_ok g /\ channel_ok b -> ~ alpha_ok a ->
  validateRGBA r g b a =
  bindO (join [r; g; b; a] ", ")
        (fun tuple => Normal (JString (alpha_message tuple))).
Proof.
  intros H Ha. unfold validateRGBA.
  apply channels_spec in H. rewrite H. simpl negb. cbv iota.
  destruct ((typeof a =? "undefined") || number_between 0 1 a) eqn:E.
  - apply alpha_spec in E. contradiction.
  - reflexivity.
Qed.

Lemma validateRGBA_valid (r g b a : JSValue) :
  channel_ok r /\ channel_ok g /\ channel_ok b -> alpha_ok a ->
  validateRGBA r g b a = Normal JNull.
Proof.
  intros H Ha. unfold validateRGBA.
  apply channels_spec in H. apply alpha_spec in Ha.
  now rewrite H, Ha.
Qed.

Lemma channels_dec (r g b : JSValue) :
  (channel_ok r /\ channel_ok g /\ channel_ok b)
  \/ ~ (channel_ok r /\ channel_ok g /\ channel_ok b).
Proof.
  destruct (number_between 0 255 r && number_between 0 255 g
            && number_between 0 255 b) eqn:E.
  - left. now apply channels_spec.
  - right. intros H. apply channels_spec in H. congruence.
Qed.

Lemma alpha_dec (a : JSValue) : alpha_ok a \/ ~ alpha_ok a.
Proof.
  destruct ((typeof a =? "undefined") || number_between 0 1 a) eqn:E.
  - left. now apply alpha_spec.
  - right. intros H. apply alpha_spec in H. congruence.
Qed.

Lemma bindO_message_inv (o : Outcome string) (f : string -> string)
      (result : JSValue) :
  bindO o (fun tuple => Normal (JString (f tuple))) = Normal result ->
  exists tuple, o = Normal tuple /\ result = JString (f tuple).
Proof.
  destruct o as [[tuple | e] | source]; simpl; intros H; try discriminate.
  injection H as <-. eauto.
Qed.

Lemma bindO_message_not_null (o : Outcome string) (f : string -> string) :
  bindO o (fun tuple => Normal (JString (f tuple))) <> Normal JNull.
Proof. destruct o as [[tuple | e] | source]; simpl; discriminate. Qed.

(** C3: for all numbers [r], [g], [b] in the closed range from 0 to 255 and
    [a] either omitted (undefined) or a number in the closed range from 0 to
    1, [validateRGBA(r, g, b, a)] reports no error: it returns null. *)
Theorem validateRGBA_accepts_in_range (r g b : float) (a : JSValue) :
  in_closed_range 0 255 r ->
  in_closed_range 0 255 g ->
  in_closed_range 0 255 b ->
  alpha_ok a ->
  validateRGBA (JNumber r) (JNumber g) (JNumber b) a = Normal JNull.
Proof.
  intros Hr Hg Hb Ha.
  apply validateRGBA_valid; [| exact Ha].
  unfold channel_ok. repeat split; eauto.
Qed.

Lemma validateRGBA_accepts_in_range_witness :
  validateRGBA (JNumber 0) (JNumber 127.5) (JNumber 255) (JNumber 0.5)
  = Normal JNull
  /\ validateRGBA (JNumber 255) (JNumber 0) (JNumber 64) JUndefined
     = Normal JNull.
Proof.
  split.
  - apply (validateRGBA_accepts_in_range 0 127.5 255 (JNumber 0.5));
      try (split; reflexivity).
    right. exists 0.5%float. split; [reflexivity | split; reflexivity].
  - apply (validateRGBA_accepts_in_range 255 0 64 JUndefined);
      try (split; reflexivity).
    left. reflexivity.
Defined.

(** C4, as the spec states it, fails: with [a] supplied as something that is
    no number (here the string 0.5) and [r] out of range, the message echoes
    the 3-tuple, not the 4-tuple. *)
Lemma validateRGBA_supplied_alpha_left_out :
  validateRGBA (JNumber (-1)) (JNumber 0) (JNumber 0) (JString "0.5")
  = Normal (JString (rgb_message "-1, 0, 0"))
  /\ join [JNumber (-1); JNumber 0; JNumber 0; JString "0.5"] ", "
     = Normal "-1, 0, 0, 0.5".
Proof. split; vm_compute; reflexivity. Qed.

(** C4, amended: whenever [validateRGBA] returns an error, the message names
    a violated constraint set and echoes the channel values.  When the
    r/g/b constraint is the one reported, the echo is the 4-tuple
    [[r, g, b, a]] if [a] is a number and the 3-tuple [[r, g, b]] if it is
    not (omitted or anything else); when the alpha constraint is the one
    reported, [r], [g], [b] are valid and the echo is the 4-tuple.  In
    particular [validateRGBA(0, 0, 0, 1.5)] names the alpha constraint and
    echoes [[0, 0, 0, 1.5]]. *)
Theorem validateRGBA_message :
  (forall (r g b a : JSValue) (message : string),
      validateRGBA r g b a = Normal (JString message) ->
      (~ (channel_ok r /\ channel_ok g /\ channel_ok b)
       /\ exists tuple,
           join (if typeof a =? "number" then [r; g; b; a] else [r; g; b]) ", "
           = Normal tuple
           /\ message = rgb_message tuple)
      \/ ((channel_ok r /\ channel_ok g /\ channel_ok b)
          /\ ~ alpha_ok a
          /\ exists tuple,
              join [r; g; b; a] ", " = Normal tuple
              /\ message = alpha_message tuple))
  /\ validateRGBA (JNumber 0) (JNumber 0) (JNumber 0) (JNumber 1.5)
     = Normal (JString "Invalid rgba value [0, 0, 0, 1.5]: 'a' must be between 0 and 1.").
Proof.
  split; [| vm_compute; reflexivity].
  intros r g b a message H.
  destruct (channels_dec r g b) as [Hc | Hc].
  - destruct (alpha_dec a) as [Ha | Ha].
    + rewrite (validateRGBA_valid r g b a Hc Ha) in H. discriminate.
    + right. split; [exact Hc |]. split; [exact Ha |].
      rewrite (validateRGBA_alpha_branch r g b a Hc Ha) in H.
      apply bindO_message_inv in H. destruct H as (tuple & Hj & Hm).
      exists tuple. split; [exact Hj | congruence].
  - left. split; [exact Hc |].
    rewrite (validateRGBA_rgb_branch r g b a Hc) in H.
    apply bindO_message_inv in H. destruct H as (tuple & Hj & Hm).
    exists tuple. split; [exact Hj | congruence].
Qed.

Lemma validateRGBA_message_witness :
  (~ (channel_ok (JNumber 300) /\ channel_ok (JNumber 0) /\ channel_ok (JNumber 0))
   /\ exists tuple,
       join [JNumber 300; JNumber 0; JNumber 0] ", " = Normal tuple
       /\ rgb_message "300, 0, 0" = rgb_message tuple)
  \/ ((channel_ok (JNumber 300) /\ channel_ok (JNumber 0) /\ channel_ok (JNumber 0))
      /\ ~ alpha_ok JUndefined
      /\ exists tuple,
          join [JNumber 300; JNumber 0; JNumber 0; JUndefined] ", " = Normal tuple
          /\ rgb_message "300, 0, 0" = alpha_message tuple).
Proof.
  apply (proj1 validateRGBA_message
               (JNumber 300) (JNumber 0) (JNumber 0) JUndefined
               (rgb_message "300, 0, 0")).
  vm_compute. reflexivity.
Defined.




(** ** isValue *)

Lemma forallb_Forall_iff {A : Type} (f : A -> bool) (P : A -> Prop)
      (l : list A) :
  Forall (fun x => f x = true <-> P x) l ->
  (forallb f l = true <-> Forall P l).
Proof.
  induction 1 as [| x l Hx _ IH]; simpl.
  - split; auto.
  - rewrite andb_true_iff, Hx, IH. split.
    + intros [H1 H2]. now constructor.
    + intros H. inversion H. auto.
Qed.

(** [isValue] accepts the grammar in which every class instance that is no
    wrapper counts as a keyed mapping. *)
Lemma isValue_iff_Grammar (v : JSValue) :
  isValue v = true <-> Grammar (fun _ => true) v.
Proof.
  induction v as [ | | b | x | s | d | src | c str json | items IH | props IH | z]
    using JSValue_tree_ind; simpl;
    try (split; [intros _; constructor | reflexivity]);
    try (split; [discriminate | intros H; inversion H]).
  - split; [intros _ | intros _; now destruct c].
    now apply Grammar_keyed_instance.
  - rewrite (forallb_Forall_iff isValue (Grammar (fun _ => true)) items IH).
    split; [apply Grammar_array | intros H; now inversion H].
  - rewrite (forallb_Forall_iff (fun kv => isValue (snd kv))
               (fun kv => Grammar (fun _ => true) (snd kv)) props IH).
    split; [apply Grammar_mapping | intros H; now inversion H].
Qed.

(** C5, as the spec states it, fails: a Date is none of the shapes of the
    Value grammar, and [isValue] returns true for it. *)
Lemma isValue_accepts_date :
  isValue (JInstance ClsDate "Tue Nov 03 2026 00:00:00 GMT+0000"
                     (QuoteJSONString "2026-11-03T00:00:00.000Z")) = true
  /\ ~ ValueGrammar (JInstance ClsDate "Tue Nov 03 2026 00:00:00 GMT+0000"
                               (QuoteJSONString "2026-11-03T00:00:00.000Z")).
Proof.
  split; [reflexivity |].
  intros H. inversion H; discriminate.
Qed.

(** C5, amended: [isValue(candidate)] returns true if and only if
    [candidate] is null, a primitive string, boolean or number, an instance
    of one of the five wrapper kinds, an array whose every element is
    recursively a Value, or any other object (a plain keyed mapping, or an
    instance of another class such as a Date, which has no enumerable
    property) whose every enumerable property value is recursively a Value.
    It returns false for undefined, for symbols and for function values. *)
Theorem isValue_grammar :
  (forall candidate : JSValue,
      isValue candidate = true <-> Grammar (fun _ => true) candidate)
  /\ isValue JUndefined = false
  /\ (forall description, isValue (JSymbol description) = false)
  /\ (forall source, isValue (JFunction source) = false).
Proof.
  split; [exact isValue_iff_Grammar |]. repeat split.
Qed.

(** ** toString on null, primitives and wrappers *)

(** C8: [toString] maps null to the empty string and a primitive string,
    number or boolean to its conventional textual form ([toString(true)] is
    true, [toString(42)] is 42), and for a Color, Formatted, Padding or
    ResolvedImage wrapper it returns that wrapper's own string form. *)
Theorem toString_primitives_and_wrappers :
  toString JNull = Normal (JString "")
  /\ toString (JBoolean true) = Normal (JString "true")
  /\ toString (JNumber 42) = Normal (JString "42")
  /\ (forall s, toString (JString s) = Normal (JString s))
  /\ (forall b,
         toString (JBoolean b) = Normal (JString (if b then "true" else "false")))
  /\ (forall x, toString (JNumber x) = Normal (JString (Number_toString x)))
  /\ (forall str json, toString (JInstance ClsColor str json) = Normal (JString str))
  /\ (forall str json, toString (JInstance ClsFormatted str json) = Normal (JString str))
  /\ (forall str json, toString (JInstance ClsPadding str json) = Normal (JString str))
  /\ (forall str json,
         toString (JInstance ClsResolvedImage str json) = Normal (JString str)).
Proof.
  repeat split.
Qed.

(** ** Numbers that are not finite *)

(** C10: NaN, Infinity and -Infinity are accepted as Number values:
    [isValue] returns true for each of them and [typeOf] returns the
    singleton Number type. *)
Theorem non_finite_numbers_are_numbers :
  (Prim2SF nan = S754_nan
   /\ Prim2SF infinity = S754_infinity false
   /\ Prim2SF neg_infinity = S754_infinity true)
  /\ (isValue (JNumber nan) = true
      /\ isValue (JNumber infinity) = true
      /\ isValue (JNumber neg_infinity) = true)
  /\ (forall h, typeOf (JNumber nan) h = (Normal NumberType, h))
  /\ (forall h, typeOf (JNumber infinity) h = (Normal NumberType, h))
  /\ (forall h, typeOf (JNumber neg_infinity) h = (Normal NumberType, h)).
Proof.
  repeat split.
Qed.

(** ** typeOf: allocation and totality *)

Lemma typeOf_array (items : list JSValue) :
  typeOf (JArray items) =
  bind (typeOf_loop typeOf items None)
       (fun itemType =>
          array (match itemType with
                 | Some t => t
                 | None => ValueType
                 end) (Some (List.length items))).
Proof. reflexivity. Qed.

Lemma bind_normal_inv {A B : Type} (c : M A) (k : A -> M B)
      (h h' : Heap) (b : B) :
  bind c k h = (Normal b, h') ->
  exists a h1, c h = (Normal a, h1) /\ k a h1 = (Normal b, h').
Proof.
  unfold bind. destruct (c h) as [[a | e] h1]; intros H.
  - eauto.
  - discriminate.
Qed.

Lemma allocated_before_le (h h' : Heap) (t : Ty) :
  allocated_before h t -> h <= h' -> allocated_before h' t.
Proof. destruct t; simpl; [auto | lia]. Qed.

(** A descriptor made earlier is identical to one made later only when both
    are the same singleton. *)
Lemma identical_later (h : Heap) (adopted t : Ty) :
  allocated_before h adopted -> allocated_from h t ->
  identical adopted t =
  match adopted, t with
  | Singleton j, Singleton k => Kind_eqb j k
  | _, _ => false
  end.
Proof.
  destruct adopted as [j | r it n], t as [k | r' it' n']; simpl; auto.
  intros H1 H2. apply Nat.eqb_neq. lia.
Qed.

Lemma Kind_eqb_eq (j k : Kind) : Kind_eqb j k = true <-> j = k.
Proof. destruct j, k; simpl; split; congruence. Qed.

Lemma Class_eqb_eq (c d : Class) : Class_eqb c d = true <-> c = d.
Proof. destruct c, d; simpl; split; congruence. Qed.

Lemma typeOf_loop_grows (items : list JSValue) :
  Forall (fun v => forall h c h',
              typeOf v h = (c, h') ->
              h <= h'
              /\ forall t, c = Normal t ->
                           allocated_from h t /\ allocated_before h' t) items ->
  forall itemType h c h',
    typeOf_loop typeOf items itemType h = (c, h') -> h <= h'.
Proof.
  induction 1 as [| v rest Hv _ IH]; simpl; intros itemType h c h' H.
  - injection H as _ <-. lia.
  - unfold bind in H. destruct (typeOf v h) as [[t | e] h1] eqn:E.
    + destruct (Hv h _ _ E) as [Hle _].
      destruct itemType as [adopted |].
      * destruct (identical adopted t).
        -- apply IH in H. lia.
        -- injection H as _ <-. exact Hle.
      * apply IH in H. lia.
    + destruct (Hv h _ _ E) as [Hle _]. injection H as _ <-. exact Hle.
Qed.

(** A call of [typeOf] only allocates, and an array descriptor it returns
    was allocated during the call. *)
Lemma typeOf_allocation (v : JSValue) :
  forall h c h',
    typeOf v h = (c, h') ->
    h <= h'
    /\ forall t, c = Normal t -> allocated_from h t /\ allocated_before h' t.
Proof.
  induction v as [ | | b | x | s | d | src | cl str json | items IH | props _ | z]
    using JSValue_tree_ind; intros h c h' H;
    try (injection H as <- <-; split;
         [lia | intros t Ht; injection Ht as <-; simpl; auto]);
    try (injection H as <- <-; split; [lia | discriminate]).
  - destruct cl; injection H as <- <-;
      (split; [lia | intros t Ht; injection Ht as <-; simpl; auto]).
  - rewrite typeOf_array in H. unfold bind in H.
    destruct (typeOf_loop typeOf items None h) as [[o | e] h1] eqn:E.
    + apply (typeOf_loop_grows items IH) in E.
      unfold array in H. injection H as <- <-.
      split; [lia |].
      intros t Ht. injection Ht as <-. simpl. lia.
    + apply (typeOf_loop_grows items IH) in E.
      injection H as <- <-. split; [exact E | discriminate].
Qed.

Lemma typeOf_grows (v : JSValue) (h h' : Heap) (c : Completion Ty) :
  typeOf v h = (c, h') -> h <= h'.
Proof. intros H. now apply typeOf_allocation in H. Qed.

Lemma typeOf_fresh (v : JSValue) (h h' : Heap) (t : Ty) :
  typeOf v h = (Normal t, h') -> allocated_from h t /\ allocated_before h' t.
Proof.
  intros H. apply typeOf_allocation in H. destruct H as [_ H]. now apply H.
Qed.

(** What is not an array gets a singleton, and nothing is allocated. *)
Lemma typeOf_not_array (v : JSValue) (h h' : Heap) (t : Ty) :
  Array_isArray v = false ->
  typeOf v h = (Normal t, h') -> h' = h /\ exists k, t = Singleton k.
Proof.
  destruct v as [ | | b | x | s | d | src | c str json | items | props | z];
    simpl; intros Ha H; try discriminate;
    try (injection H as <- <-; split; [reflexivity | eexists; reflexivity]).
  destruct c; injection H as <- <-;
    (split; [reflexivity | eexists; reflexivity]).
Qed.

(** An array gets a descriptor of its own, the last object allocated, with
    the exact element count. *)
Lemma typeOf_of_array (items : list JSValue) (h h' : Heap) (t : Ty) :
  typeOf (JArray items) h = (Normal t, h') ->
  exists r itemType,
    t = ArrayType r itemType (Some (List.length items)) /\ h' = S r.
Proof.
  rewrite typeOf_array. intros H.
  apply bind_normal_inv in H. destruct H as (o & h1 & _ & H).
  unfold array in H. injection H as <- <-. eauto.
Qed.

Lemma typeOf_loop_total (items : list JSValue) :
  Forall (fun v => isValue v = true ->
                   forall h, exists t h', typeOf v h = (Normal t, h')) items ->
  forallb isValue items = true ->
  forall itemType h,
  exists o h', typeOf_loop typeOf items itemType h = (Normal o, h').
Proof.
  induction 1 as [| v rest Hv _ IH]; simpl; intros Hall itemType h.
  - unfold ret. eauto.
  - apply andb_true_iff in Hall. destruct Hall as [H1 H2].
    destruct (Hv H1 h) as (t & h1 & E). unfold bind. rewrite E.
    destruct itemType as [adopted |].
    + destruct (identical adopted t).
      * apply IH, H2.
      * unfold ret. eauto.
    + apply IH, H2.
Qed.

(** [typeOf] returns a type for every value [isValue] accepts. *)
Lemma typeOf_total (v : JSValue) :
  isValue v = true -> forall h, exists t h', typeOf v h = (Normal t, h').
Proof.
  induction v as [ | | b | x | s | d | src | c str json | items IH | props _ | z]
    using JSValue_tree_ind; intros Hv h; simpl in Hv;
    try discriminate; try (do 2 eexists; reflexivity).
  - destruct c; do 2 eexists; reflexivity.
  - rewrite typeOf_array.
    destruct (typeOf_loop_total items IH Hv None h) as (o & h1 & E).
    unfold bind. rewrite E. unfold array. eauto.
Qed.

(** ** typeOf on arrays: the homogeneity merge *)

(** Once a type is adopted, the loop of [typeOf] is the rest of the merge. *)
Lemma typeOf_loop_adopted (rest : list JSValue) (adopted : Ty) (h : Heap) :
  typeOf_loop typeOf rest (Some adopted) h =
  bind (merge_rest adopted rest) (fun t => ret (Some t)) h.
Proof.
  revert h. induction rest as [| item rest IH]; intros h; simpl.
  - reflexivity.
  - unfold bind at 1 2 3. destruct (typeOf item h) as [[t | e] h1].
    + destruct (identical adopted t).
      * rewrite IH. reflexivity.
      * reflexivity.
    + reflexivity.
Qed.

Lemma typeOf_array_refines (items : list JSValue) (h : Heap) :
  typeOf (JArray items) h =
  bind (homogeneity_merge items)
       (fun itemType => array itemType (Some (List.length items))) h.
Proof.
  rewrite typeOf_array. destruct items as [| first rest].
  - reflexivity.
  - cbn [typeOf_loop homogeneity_merge]. unfold bind at 1 2 3 4.
    destruct (typeOf first h) as [[t | e] h1]; [| reflexivity].
    rewrite typeOf_loop_adopted. unfold bind.
    destruct (merge_rest t rest h1) as [[u | e] h2]; reflexivity.
Qed.

(** C1: for every array value, [typeOf] returns [Array(itemType, length)]
    where [length] is the exact element count and [itemType] is computed by
    the homogeneity merge: the first element's type is adopted; each later
    element whose type is identical to the adopted type is skipped; at the
    first type that is not, the item type becomes the top Value type and no
    further element is examined; an empty array yields the top Value type
    and length 0.  In particular [typeOf([])] is [Array(Value, 0)],
    [typeOf([1,2,3])] is [Array(Number, 3)] and [typeOf([1,'a'])] is
    [Array(Value, 2)]. *)
Theorem typeOf_array_homogeneity_merge :
  (forall items h,
      typeOf (JArray items) h =
      bind (homogeneity_merge items)
           (fun itemType => array itemType (Some (List.length items))) h)
  /\ (forall items h,
         isValue (JArray items) = true ->
         exists itemType r,
           homogeneity_merge items h = (Normal itemType, r)
           /\ typeOf (JArray items) h =
              (Normal (ArrayType r itemType (Some (List.length items))), S r))
  /\ (forall h,
         typeOf (JArray []) h = (Normal (ArrayType h ValueType (Some 0)), S h))
  /\ (forall h,
         typeOf (JArray [JNumber 1; JNumber 2; JNumber 3]) h =
         (Normal (ArrayType h NumberType (Some 3)), S h))
  /\ (forall h,
         typeOf (JArray [JNumber 1; JString "a"]) h =
         (Normal (ArrayType h ValueType (Some 2)), S h)).
Proof.
  split; [exact typeOf_array_refines |].
  split; [| repeat split].
  intros items h Hv.
  destruct (typeOf_total (JArray items) Hv h) as (t & h' & E).
  rewrite typeOf_array_refines in E.
  apply bind_normal_inv in E. destruct E as (itemType & r & Hm & Ha).
  exists itemType, r. split; [exact Hm |].
  rewrite typeOf_array_refines. unfold bind. rewrite Hm. reflexivity.
Qed.

Lemma typeOf_array_homogeneity_merge_witness :
  exists itemType r,
    homogeneity_merge [JString "a"; JString "b"; JNull] 4 = (Normal itemType, r)
    /\ typeOf (JArray [JString "a"; JString "b"; JNull]) 4 =
       (Normal (ArrayType r itemType (Some 3)), S r).
Proof.
  apply (proj1 (proj2 typeOf_array_homogeneity_merge)
               [JString "a"; JString "b"; JNull] 4).
  reflexivity.
Defined.

(** An array whose first element is an array and that has a second element
    gets the top type for its items: the first element's descriptor was
    allocated before the second element's type was computed. *)
Lemma typeOf_after_array (xs : list JSValue) (second : JSValue)
      (rest : list JSValue) (h : Heap) :
  isValue (JArray xs) = true ->
  isValue second = true ->
  exists r,
    typeOf (JArray (JArray xs :: second :: rest)) h =
    (Normal (ArrayType r ValueType (Some (S (S (List.length rest))))), S r).
Proof.
  intros Hxs Hsecond.
  destruct (typeOf_total (JArray xs) Hxs h) as (t1 & h1 & E1).
  destruct (typeOf_total second Hsecond h1) as (t2 & h2 & E2).
  destruct (typeOf_of_array xs h h1 t1 E1) as (r1 & it1 & Ht1 & Hh1).
  pose proof (typeOf_fresh _ _ _ _ E1) as [_ Hbefore].
  pose proof (typeOf_fresh _ _ _ _ E2) as [Hfrom _].
  pose proof (identical_later h1 t1 t2 Hbefore Hfrom) as Hid.
  rewrite Ht1 in Hid.
  exists h2. rewrite typeOf_array_refines.
  cbn [homogeneity_merge merge_rest List.length]. unfold bind.
  rewrite E1, E2. rewrite Ht1, Hid. reflexivity.
Qed.

(** C2: for every array whose elements are themselves arrays of differing
    lengths, such as [[[1,2],[3]]], [typeOf] infers the top Value type as
    the outer item type. *)
Theorem typeOf_arrays_of_differing_lengths (items : list JSValue) (h : Heap) :
  isValue (JArray items) = true ->
  Forall (fun item => Array_isArray item = true) items ->
  (exists xs ys,
      In (JArray xs) items /\ In (JArray ys) items
      /\ List.length xs <> List.length ys) ->
  exists r,
    typeOf (JArray items) h =
    (Normal (ArrayType r ValueType (Some (List.length items))), S r).
Proof.
  intros Hv Harr (xs & ys & Hxs & Hys & Hlen).
  destruct items as [| first [| second rest]].
  - destruct Hxs.
  - exfalso. destruct Hxs as [Hxs | []], Hys as [Hys | []].
    apply Hlen. congruence.
  - inversion Harr as [| ? ? Hfirst _]; subst.
    destruct first; try discriminate.
    simpl in Hv. apply andb_true_iff in Hv. destruct Hv as [H1 H2].
    apply andb_true_iff in H2. destruct H2 as [H2 _].
    apply typeOf_after_array; assumption.
Qed.

Lemma typeOf_arrays_of_differing_lengths_witness :
  exists r,
    typeOf (JArray [JArray [JNumber 1; JNumber 2]; JArray [JNumber 3]]) 0 =
    (Normal (ArrayType r ValueType (Some 2)), S r).
Proof.
  apply (typeOf_arrays_of_differing_lengths
           [JArray [JNumber 1; JNumber 2]; JArray [JNumber 3]] 0).
  - reflexivity.
  - repeat constructor.
  - exists [JNumber 1; JNumber 2], [JNumber 3].
    split; [left; reflexivity |].
    split; [right; left; reflexivity |].
    simpl. lia.
Defined.

(** ** typeOf on two values of the same shape *)

Lemma all2_length {A B : Type} (f : A -> B -> bool) (l : list A) (l' : list B) :
  all2 f l l' = true -> List.length l = List.length l'.
Proof.
  revert l'. induction l as [| x l IH]; intros [| y l']; simpl;
    try discriminate; auto.
  intros H. apply andb_true_iff in H. destruct H as [_ H]. f_equal. auto.
Qed.

Lemma alike_same_singleton (a b t u : Ty) :
  alike a b -> alike t u ->
  match a, t with
  | Singleton j, Singleton k => Kind_eqb j k
  | _, _ => false
  end
  = match b, u with
    | Singleton j, Singleton k => Kind_eqb j k
    | _, _ => false
    end.
Proof.
  unfold alike.
  destruct a as [j | ? ? ?], b as [j' | ? ? ?]; simpl; try discriminate;
    destruct t as [k | ? ? ?], u as [k' | ? ? ?]; simpl; try discriminate;
    auto.
  intros Hj Hk. apply Kind_eqb_eq in Hj, Hk. now subst.
Qed.

Lemma typeOf_loop_agree (xs : list JSValue) :
  Forall (fun x => forall w,
              structurally_equal false x w = true ->
              forall h h', agree alike (fst (typeOf x h)) (fst (typeOf w h')))
         xs ->
  forall ys,
    all2 (structurally_equal false) xs ys = true ->
    forall o o' h h',
      adopted_alike h h' o o' ->
      agree (fun r r' => alike (item_or_value r) (item_or_value r'))
            (fst (typeOf_loop typeOf xs o h))
            (fst (typeOf_loop typeOf ys o' h')).
Proof.
  induction 1 as [| x xs Hx _ IH]; intros [| y ys] Hall o o' h h' Ho;
    simpl in Hall; try discriminate.
  - simpl. destruct o, o'; simpl in *; tauto.
  - apply andb_true_iff in Hall. destruct Hall as [Hxy Hrest].
    specialize (Hx y Hxy h h').
    cbn [typeOf_loop]. unfold bind.
    destruct (typeOf x h) as [[t | e] h1] eqn:E1;
      destruct (typeOf y h') as [[u | e'] h1'] eqn:E2;
      simpl in Hx; try contradiction; [| exact I].
    pose proof (typeOf_fresh _ _ _ _ E1) as [Hfrom1 Hbefore1].
    pose proof (typeOf_fresh _ _ _ _ E2) as [Hfrom2 Hbefore2].
    pose proof (typeOf_grows _ _ _ _ E1) as Hle1.
    pose proof (typeOf_grows _ _ _ _ E2) as Hle2.
    destruct o as [a |], o' as [b |]; simpl in Ho; try contradiction.
    + destruct Ho as (Hab & Ha & Hb).
      rewrite (identical_later h a t Ha Hfrom1).
      rewrite (identical_later h' b u Hb Hfrom2).
      rewrite (alike_same_singleton a b t u Hab Hx).
      destruct (match b, u with
                | Singleton j, Singleton k => Kind_eqb j k
                | _, _ => false
                end).
      * apply IH; [exact Hrest |]. simpl.
        repeat split; eauto using allocated_before_le.
      * simpl. reflexivity.
    + apply IH; [exact Hrest |]. simpl. auto.
Qed.

(** On two structurally equal values [typeOf] throws both times, or returns
    two descriptors of the same structure. *)
Lemma typeOf_agree (v : JSValue) :
  forall w,
    structurally_equal false v w = true ->
    forall h h', agree alike (fst (typeOf v h)) (fst (typeOf w h')).
Proof.
  induction v as [ | | b | x | s | d | src | c str json | items IH | props _ | z]
    using JSValue_tree_ind;
    intros [ | | b' | x' | s' | d' | src' | c' str' json' | items' | props' | z']
           Heq h h';
    simpl in Heq; try discriminate;
    try exact I; try reflexivity.
  - apply andb_true_iff in Heq. destruct Heq as [Heq _].
    apply andb_true_iff in Heq. destruct Heq as [Heq _].
    apply Class_eqb_eq in Heq. subst c'. destruct c; reflexivity.
  - rewrite !typeOf_array. unfold bind.
    pose proof (typeOf_loop_agree items IH items' Heq None None h h' I) as H.
    rewrite (all2_length _ _ _ Heq).
    destruct (typeOf_loop typeOf items None h) as [[o | e] h1];
      destruct (typeOf_loop typeOf items' None h') as [[o' | e'] h1'];
      simpl in H; try contradiction; [| exact I].
    unfold array, alike. simpl.
    unfold alike in H. fold (item_or_value o). fold (item_or_value o').
    rewrite H. simpl. apply Nat.eqb_refl.
Qed.

(** C7, as the spec states it, fails: [typeOf] run twice on an empty array
    returns two array descriptors that are not identical. *)
Lemma typeOf_twice_not_identical :
  bind (typeOf (JArray []))
       (fun t => bind (typeOf (JArray []))
                      (fun u => ret (identical t u, same_structure t u))) 0
  = (Normal (false, true), 2).
Proof. reflexivity. Qed.

(** C7, amended: for every Type [t] that [typeOf] returns on a Value,
    running [typeOf] on a newly constructed Value of the same shape returns
    a Type of the same structure as [t] (the same kind and, for an array
    type, the same item type and length).  It is identical to [t] when the
    value is not an array; when the value is an array, the second run
    allocates a descriptor of its own, which is not identical to [t]. *)
Theorem typeOf_same_shape (v w : JSValue) (h h1 h' : Heap) (t : Ty) :
  structurally_equal false v w = true ->
  typeOf v h = (Normal t, h1) ->
  exists u h1',
    typeOf w h' = (Normal u, h1')
    /\ same_structure t u = true
    /\ (Array_isArray v = false -> identical t u = true)
    /\ (Array_isArray v = true -> h1 <= h' -> identical t u = false).
Proof.
  intros Heq E.
  pose proof (typeOf_agree v w Heq h h') as H. rewrite E in H.
  destruct (typeOf w h') as [[u | e] h1'] eqn:E'; simpl in H;
    [| contradiction].
  exists u, h1'. split; [reflexivity |]. split; [exact H |]. split.
  - intros Hv. destruct (typeOf_not_array v h h1 t Hv E) as (_ & k & ->).
    destruct u; simpl in *; [exact H | discriminate].
  - intros Hv Hle. destruct v; try discriminate.
    destruct w; try discriminate.
    destruct (typeOf_of_array _ _ _ _ E) as (r & it & -> & ->).
    destruct (typeOf_of_array _ _ _ _ E') as (r' & it' & -> & ->).
    pose proof (typeOf_fresh _ _ _ _ E') as [Hfrom _]. simpl in Hfrom.
    simpl. apply Nat.eqb_neq. lia.
Qed.

Lemma typeOf_same_shape_witness :
  exists u h1',
    typeOf (JArray [JNumber 1; JNumber 2]) 1 = (Normal u, h1')
    /\ same_structure (ArrayType 0 NumberType (Some 2)) u = true
    /\ (Array_isArray (JArray [JNumber 1; JNumber 2]) = false ->
        identical (ArrayType 0 NumberType (Some 2)) u = true)
    /\ (Array_isArray (JArray [JNumber 1; JNumber 2]) = true ->
        1 <= 1 -> identical (ArrayType 0 NumberType (Some 2)) u = false).
Proof.
  apply (typeOf_same_shape (JArray [JNumber 1; JNumber 2])
                           (JArray [JNumber 1; JNumber 2]) 0 1 1
                           (ArrayType 0 NumberType (Some 2))).
  - reflexivity.
  - reflexivity.
Defined.

(** ** toString on structurally equal values *)

Lemma same_number_spec (x y : float) :
  same_number x y = true ->
  Number_toString x = Number_toString y
  /\ Number_isFinite x = Number_isFinite y.
Proof.
  unfold same_number, Number_toString, Number_isFinite.
  destruct (Prim2SF x) as [s | s | | s m e], (Prim2SF y) as [s' | s' | | s' m' e'];
    simpl; try discriminate; auto.
  - intros H. apply eqb_prop in H. now subst.
  - intros H. apply andb_true_iff in H. destruct H as [H He].
    apply andb_true_iff in H. destruct H as [Hs Hm].
    apply eqb_prop in Hs. apply Pos.eqb_eq in Hm. apply Z.eqb_eq in He.
    now subst.
Qed.

Lemma SerializeJSONProperty_array (items : list JSValue) :
  SerializeJSONProperty (JArray items) =
  bindO (mapO (fun item =>
                 bindO (SerializeJSONProperty item)
                       (fun text => Normal (match text with
                                            | Some s => s
                                            | None => "null"
                                            end))) items)
        (fun texts => Normal (Some ("[" ++ String.concat "," texts ++ "]"))).
Proof. reflexivity. Qed.

Lemma SerializeJSONProperty_object (props : list (string * JSValue)) :
  SerializeJSONProperty (JObject props) =
  match lookup "toJSON" props with
  | Some (JFunction source) => Invokes source
  | _ =>
      bindO (mapO (fun kv =>
                     bindO (SerializeJSONProperty (snd kv))
                           (fun text =>
                              Normal (match text with
                                      | Some s =>
                                          [QuoteJSONString (fst kv) ++ ":" ++ s]
                                      | None => []
                                      end))) props)
            (fun members =>
               Normal (Some ("{" ++ String.concat "," (List.concat members)
                                 ++ "}")))
  end.
Proof. reflexivity. Qed.

(** Under one key, two objects that are equal with their keys in the same
    order hold nothing both, or two equal values. *)
Lemma lookup_ordered (key : string) (props props' : list (string * JSValue)) :
  all2 (fun kv kv' =>
          (fst kv =? fst kv')
          && structurally_equal true (snd kv) (snd kv')) props props' = true ->
  match lookup key props, lookup key props' with
  | Some x, Some y => structurally_equal true x y = true
  | None, None => True
  | _, _ => False
  end.
Proof.
  revert props'.
  induction props as [| [k x] props IH]; intros [| [k' y] props'] H;
    simpl in H; try discriminate; [exact I |].
  apply andb_true_iff in H. destruct H as [Hxy Hrest].
  apply andb_true_iff in Hxy. destruct Hxy as [Hk Hxy].
  apply String.eqb_eq in Hk. subst k'. simpl in Hxy. simpl.
  destruct (k =? key); [exact Hxy | now apply IH].
Qed.

(** JSON.stringify gives one text for two values that are equal with their
    keys in the same order. *)
Lemma SerializeJSONProperty_ordered (v : JSValue) :
  forall w,
    structurally_equal true v w = true ->
    SerializeJSONProperty v = SerializeJSONProperty w.
Proof.
  induction v as [ | | b | x | s | d | src | c str json | items IH | props IH | z]
    using JSValue_tree_ind;
    intros [ | | b' | x' | s' | d' | src' | c' str' json' | items' | props' | z']
           Heq;
    simpl in Heq; try discriminate; try reflexivity.
  - apply eqb_prop in Heq. now subst.
  - apply same_number_spec in Heq. destruct Heq as [Hs Hf].
    simpl. now rewrite Hs, Hf.
  - apply String.eqb_eq in Heq. now subst.
  - apply andb_true_iff in Heq. destruct Heq as [_ Heq].
    apply String.eqb_eq in Heq. now subst.
  - rewrite !SerializeJSONProperty_array.
    match goal with
    | |- bindO (mapO ?f _) _ = _ =>
        assert (mapO f items = mapO f items') as ->; [| reflexivity]
    end.
    revert items' Heq.
    induction IH as [| x xs Hx _ IHxs]; intros [| y ys] Heq;
      simpl in Heq; try discriminate; [reflexivity |].
    apply andb_true_iff in Heq. destruct Heq as [Hxy Hrest].
    cbn [mapO]. rewrite (Hx y Hxy). now rewrite (IHxs ys Hrest).
  - rewrite !SerializeJSONProperty_object.
    pose proof (lookup_ordered "toJSON" props props' Heq) as Hmethod.
    assert (forall f : string * JSValue -> Outcome (list string),
               (forall kv kv',
                   In kv props ->
                   (fst kv =? fst kv')
                   && structurally_equal true (snd kv) (snd kv') = true ->
                   f kv = f kv') ->
               mapO f props = mapO f props') as Hmap.
    { intros f Hf. clear Hmethod IH. revert props' Heq.
      induction props as [| kv xs IHxs]; intros [| kv' ys] Heq;
        simpl in Heq; try discriminate; [reflexivity |].
      apply andb_true_iff in Heq. destruct Heq as [Hxy Hrest].
      cbn [mapO]. rewrite (Hf kv kv' (or_introl eq_refl) Hxy).
      rewrite (IHxs (fun kv0 kv0' H0 => Hf kv0 kv0' (or_intror H0)) ys Hrest).
      reflexivity. }
    match goal with
    | |- context [bindO (mapO ?f props) ?k] =>
        assert (mapO f props = mapO f props') as Hmembers
    end.
    { apply Hmap. intros [k x] [k' y] Hin Hkv. simpl in Hkv.
      apply andb_true_iff in Hkv. destruct Hkv as [Hk Hxy].
      apply String.eqb_eq in Hk. subst k'. cbn [fst snd].
      pose proof (proj1 (Forall_forall _ props) IH (k, x) Hin y Hxy) as Hx.
      simpl in Hx. now rewrite Hx. }
    rewrite Hmembers.
    destruct (lookup "toJSON" props) as [m |],
             (lookup "toJSON" props') as [m' |];
      try contradiction; [| reflexivity].
    destruct m, m'; simpl in Hmethod; try discriminate; try reflexivity.
    apply String.eqb_eq in Hmethod. now subst.
Qed.

(** C6, as the spec states it, fails: two objects with the same keys and
    values, inserted in different orders, are structurally equal and
    well-formed, and [toString] gives two different strings. *)
Lemma toString_follows_key_order :
  structurally_equal false
    (JObject [("a", JNumber 1); ("b", JNumber 2)])
    (JObject [("b", JNumber 2); ("a", JNumber 1)]) = true
  /\ well_formed (JObject [("a", JNumber 1); ("b", JNumber 2)]) = true
  /\ well_formed (JObject [("b", JNumber 2); ("a", JNumber 1)]) = true
  /\ toString (JObject [("a", JNumber 1); ("b", JNumber 2)])
     = Normal (JString ("{" ++ dquote ++ "a" ++ dquote ++ ":1,"
                            ++ dquote ++ "b" ++ dquote ++ ":2}"))
  /\ toString (JObject [("b", JNumber 2); ("a", JNumber 1)])
     = Normal (JString ("{" ++ dquote ++ "b" ++ dquote ++ ":2,"
                            ++ dquote ++ "a" ++ dquote ++ ":1}"))
  /\ toString (JObject [("a", JNumber 1); ("b", JNumber 2)])
     <> toString (JObject [("b", JNumber 2); ("a", JNumber 1)]).
Proof.
  repeat split; try (vm_compute; reflexivity).
  vm_compute. discriminate.
Qed.

(** C6, amended: for all Values [v] and [w], if [v] and [w] are
    structurally equal with the keys of every object in the same order, then
    [toString(v)] and [toString(w)] are byte-identical strings. *)
Theorem toString_structurally_equal (v w : JSValue) :
  structurally_equal true v w = true -> toString v = toString w.
Proof.
  intros Heq.
  pose proof (SerializeJSONProperty_ordered v w Heq) as Hjson.
  destruct v as [ | | b | x | s | d | src | c str json | items | props | z],
           w as [ | | b' | x' | s' | d' | src' | c' str' json' | items' | props' | z'];
    simpl in Heq; try discriminate; try reflexivity.
  - apply eqb_prop in Heq. now subst.
  - apply same_number_spec in Heq. destruct Heq as [Hs _].
    unfold toString. simpl. now rewrite Hs.
  - apply String.eqb_eq in Heq. now subst.
  - apply andb_true_iff in Heq. destruct Heq as [Heq Hj].
    apply andb_true_iff in Heq. destruct Heq as [Hc Hs].
    apply Class_eqb_eq in Hc. apply String.eqb_eq in Hs, Hj. now subst.
  - change (JSON_stringify (JArray items) = JSON_stringify (JArray items')).
    unfold JSON_stringify. now rewrite Hjson.
  - change (JSON_stringify (JObject props) = JSON_stringify (JObject props')).
    unfold JSON_stringify. now rewrite Hjson.
Qed.

Lemma toString_structurally_equal_witness :
  toString (JArray [JNumber 0; JObject [("a", JNumber 1.5); ("b", JNull)]])
  = toString (JArray [JNumber (-0); JObject [("a", JNumber 1.5); ("b", JNull)]]).
Proof.
  apply (toString_structurally_equal
           (JArray [JNumber 0; JObject [("a", JNumber 1.5); ("b", JNull)]])
           (JArray [JNumber (-0); JObject [("a", JNumber 1.5); ("b", JNull)]])).
  vm_compute. reflexivity.
Defined.


(** * Further properties of values.ts *)

(** ** typeOf and the assertion *)

Lemma typeOf_loop_error (items : list JSValue) :
  Forall (fun v => forall h e h',
              typeOf v h = (Throw e, h') -> e = AssertionError) items ->
  forall itemType h e h',
    typeOf_loop typeOf items itemType h = (Throw e, h') -> e = AssertionError.
Proof.
  induction 1 as [| v rest Hv _ IH]; simpl; intros itemType h e h' H.
  - discriminate.
  - unfold bind in H. destruct (typeOf v h) as [[t | e0] h1] eqn:E.
    + destruct itemType as [adopted |].
      * destruct (identical adopted t); [eauto | discriminate].
      * eauto.
    + injection H as <- _. eauto.
Qed.

Lemma typeOf_error (v : JSValue) :
  forall h e h', typeOf v h = (Throw e, h') -> e = AssertionError.
Proof.
  induction v as [ | | b | x | s | d | src | c str json | items IH | props _ | z]
    using JSValue_tree_ind; intros h e h' H;
    try discriminate; try (injection H as <- _; reflexivity).
  - destruct c; discriminate.
  - rewrite typeOf_array in H. unfold bind in H.
    destruct (typeOf_loop typeOf items None h) as [[o | e0] h1] eqn:E.
    + discriminate.
    + injection H as <- _. eapply typeOf_loop_error; eauto.
Qed.

(** X1: [typeOf] returns a type for every value that [isValue] accepts, so
    its assertion never fails on a Value; when [typeOf] does throw, the
    error is that assertion's and the value is not a Value. *)
Theorem typeOf_throws_only_outside_values (v : JSValue) (h : Heap) :
  (isValue v = true -> exists t h', typeOf v h = (Normal t, h'))
  /\ (forall e h',
         typeOf v h = (Throw e, h') ->
         e = AssertionError /\ isValue v = false).
Proof.
  split.
  - intros Hv. now apply typeOf_total.
  - intros e h' H. split; [now apply typeOf_error in H |].
    destruct (isValue v) eqn:Hv; [| reflexivity].
    destruct (typeOf_total v Hv h) as (t & h1 & E). congruence.
Qed.

Lemma typeOf_throws_only_outside_values_witness :
  (exists t h',
      typeOf (JObject [("a", JArray [JNull; JInstance ClsDate "d" "j"])]) 3
      = (Normal t, h'))
  /\ AssertionError = AssertionError
     /\ isValue (JArray [JNumber 1; JFunction "f"]) = false.
Proof.
  split.
  - apply (proj1 (typeOf_throws_only_outside_values
                    (JObject [("a", JArray [JNull; JInstance ClsDate "d" "j"])])
                    3)).
    reflexivity.
  - apply (proj2 (typeOf_throws_only_outside_values
                    (JArray [JNumber 1; JFunction "f"]) 0)
                 AssertionError 0).
    reflexivity.
Defined.

(** ** The item type [typeOf] infers *)

(** A value whose type is a singleton is no array: its type is the same at
    every heap, and computing it allocates nothing. *)
Lemma typeOf_singleton_anywhere (x : JSValue) (h h' : Heap) (k : Kind) :
  typeOf x h = (Normal (Singleton k), h') ->
  forall h0, typeOf x h0 = (Normal (Singleton k), h0).
Proof.
  destruct x as [ | | b | y | s | d | src | c str json | items | props | z];
    intros H h0; try discriminate;
    try (injection H as <- _; reflexivity).
  - destruct c; injection H as <- _; reflexivity.
  - apply typeOf_of_array in H. destruct H as (r & it & H & _). discriminate.
Qed.

(** [typeOf] gives the top type to no value; it only appears as an item
    type. *)
Lemma typeOf_never_top (v : JSValue) (h h' : Heap) (t : Ty) :
  typeOf v h = (Normal t, h') -> t <> ValueType.
Proof.
  destruct v as [ | | b | y | s | d | src | c str json | items | props | z];
    intros H; try discriminate;
    try (injection H as <- _; discriminate).
  - destruct c; injection H as <- _; discriminate.
  - apply typeOf_of_array in H. destruct H as (r & it & -> & _). discriminate.
Qed.

Lemma identical_singleton (k : Kind) (t : Ty) :
  identical (Singleton k) t = true -> t = Singleton k.
Proof.
  destruct t as [j | r it n]; simpl; [| discriminate].
  intros H. apply Kind_eqb_eq in H. now subst.
Qed.

(** When the merge keeps the adopted singleton, every element it went
    through has that type. *)
Lemma merge_rest_kept (k : Kind) (rest : list JSValue) :
  k <> KValue ->
  forall h h',
    merge_rest (Singleton k) rest h = (Normal (Singleton k), h') ->
    forall x, In x rest ->
              forall h0, typeOf x h0 = (Normal (Singleton k), h0).
Proof.
  intros Hk. induction rest as [| item rest IH]; intros h h' H x Hx.
  - destruct Hx.
  - cbn [merge_rest] in H. unfold bind in H.
    destruct (typeOf item h) as [[t | e] h1] eqn:E; [| discriminate].
    destruct (identical (Singleton k) t) eqn:Hid.
    + apply identical_singleton in Hid. subst t.
      destruct Hx as [<- | Hx].
      * now apply (typeOf_singleton_anywhere item h h1).
      * now apply (IH h1 h' H).
    + injection H as H _. exfalso. apply Hk. unfold ValueType in H. congruence.
Qed.

Lemma merge_rest_result (adopted : Ty) (rest : list JSValue) :
  forall h t h',
    merge_rest adopted rest h = (Normal t, h') ->
    t = adopted \/ t = ValueType.
Proof.
  induction rest as [| item rest IH]; intros h t h' H.
  - injection H as <- _. now left.
  - cbn [merge_rest] in H. unfold bind in H.
    destruct (typeOf item h) as [[u | e] h1]; [| discriminate].
    destruct (identical adopted u); [eauto |].
    injection H as <- _. now right.
Qed.

(** X2: when [typeOf] infers for an array an item type that is a singleton
    other than the top Value type, the array is not empty and every one of
    its elements has exactly that type. *)
Theorem typeOf_item_type_sound (items : list JSValue) (h h' r : Heap)
        (k : Kind) (N : option nat) :
  typeOf (JArray items) h = (Normal (ArrayType r (Singleton k) N), h') ->
  k <> KValue ->
  items <> []
  /\ forall x, In x items ->
               forall h0, typeOf x h0 = (Normal (Singleton k), h0).
Proof.
  intros H Hk. rewrite typeOf_array_refines in H.
  apply bind_normal_inv in H. destruct H as (it & h1 & Hm & Ha).
  unfold array in Ha. injection Ha as _ -> _ _.
  destruct items as [| first rest].
  - injection Hm as Hm _. exfalso. apply Hk. unfold ValueType in Hm. congruence.
  - split; [discriminate |].
    cbn [homogeneity_merge] in Hm. apply bind_normal_inv in Hm.
    destruct Hm as (t0 & h2 & E0 & Hrest).
    destruct (merge_rest_result _ _ _ _ _ Hrest) as [Ht | Ht].
    + subst t0. intros x [<- | Hx].
      * now apply (typeOf_singleton_anywhere first h h2).
      * now apply (merge_rest_kept k rest Hk h2 h1 Hrest).
    + exfalso. apply Hk. unfold ValueType in Ht. congruence.
Qed.

Lemma typeOf_item_type_sound_witness :
  [JString "a"; JString "b"] <> []
  /\ forall x, In x [JString "a"; JString "b"] ->
               forall h0, typeOf x h0 = (Normal (Singleton KString), h0).
Proof.
  apply (typeOf_item_type_sound [JString "a"; JString "b"] 7 8 7 KString (Some 2)).
  - reflexivity.
  - discriminate.
Defined.

(** X3: an array that is not empty and whose elements all have one
    singleton type gets that type as its item type, with the exact length,
    in the one descriptor the call allocates. *)
Theorem typeOf_homogeneous_array (items : list JSValue) (k : Kind) (h : Heap) :
  items <> [] ->
  (forall x, In x items -> forall h0, typeOf x h0 = (Normal (Singleton k), h0)) ->
  typeOf (JArray items) h =
  (Normal (ArrayType h (Singleton k) (Some (List.length items))), S h).
Proof.
  intros Hne Hall. rewrite typeOf_array_refines.
  destruct items as [| first rest]; [contradiction |].
  cbn [homogeneity_merge]. unfold bind at 1 2.
  rewrite (Hall first (or_introl eq_refl) h).
  assert (merge_rest (Singleton k) rest h = (Normal (Singleton k), h)) as ->.
  { assert (forall x, In x rest ->
                      forall h0, typeOf x h0 = (Normal (Singleton k), h0)) as Hr.
    { intros x Hx. apply Hall. now right. }
    clear Hall Hne. induction rest as [| item rest IH].
    - reflexivity.
    - cbn [merge_rest]. unfold bind.
      rewrite (Hr item (or_introl eq_refl) h). simpl.
      assert (Kind_eqb k k = true) as -> by now apply Kind_eqb_eq.
      apply IH. intros x Hx. apply Hr. now right. }
  reflexivity.
Qed.

Lemma typeOf_homogeneous_array_witness :
  typeOf (JArray [JBoolean true; JBoolean false]) 2 =
  (Normal (ArrayType 2 (Singleton KBoolean) (Some 2)), 3).
Proof.
  apply (typeOf_homogeneous_array [JBoolean true; JBoolean false] KBoolean 2).
  - discriminate.
  - intros x [<- | [<- | []]] h0; reflexivity.
Defined.

(** X4: an array of two or more elements whose first element is an array
    gets the top Value type as its item type, whatever the inner arrays hold
    (equal lengths and equal item types included) and whatever follows the
    second element. *)
Theorem typeOf_array_of_arrays (xs : list JSValue) (second : JSValue)
        (rest : list JSValue) (h : Heap) :
  isValue (JArray xs) = true ->
  isValue second = true ->
  exists r,
    typeOf (JArray (JArray xs :: second :: rest)) h =
    (Normal (ArrayType r ValueType (Some (List.length (JArray xs :: second :: rest)))),
     S r).
Proof.
  intros Hxs Hsecond.
  destruct (typeOf_after_array xs second rest h Hxs Hsecond) as (r & E).
  exists r. exact E.
Qed.

Lemma typeOf_array_of_arrays_witness :
  exists r,
    typeOf (JArray [JArray [JNumber 1; JNumber 2];
                    JArray [JNumber 3; JNumber 4];
                    JUndefined]) 0 =
    (Normal (ArrayType r ValueType (Some 3)), S r).
Proof.
  apply (typeOf_array_of_arrays [JNumber 1; JNumber 2]
                                (JArray [JNumber 3; JNumber 4])
                                [JUndefined] 0); reflexivity.
Defined.

(** X5: the item type that [typeOf] infers is itself an array type only
    for an array of exactly one element. *)
Theorem typeOf_nested_only_singleton (items : list JSValue) (h h' r r' : Heap)
        (inner : Ty) (n : option nat) (N : option nat) :
  typeOf (JArray items) h = (Normal (ArrayType r (ArrayType r' inner n) N), h') ->
  List.length items = 1.
Proof.
  intros H. rewrite typeOf_array_refines in H.
  apply bind_normal_inv in H. destruct H as (it & h1 & Hm & Ha).
  unfold array in Ha. injection Ha as _ -> _ _.
  destruct items as [| first [| second rest]]; [discriminate | reflexivity |].
  exfalso. cbn [homogeneity_merge merge_rest] in Hm.
  apply bind_normal_inv in Hm. destruct Hm as (t0 & h2 & E0 & Hm).
  apply bind_normal_inv in Hm. destruct Hm as (t1 & h3 & E1 & Hm).
  pose proof (typeOf_fresh _ _ _ _ E0) as [_ Hbefore].
  pose proof (typeOf_fresh _ _ _ _ E1) as [Hfrom _].
  pose proof (identical_later h2 t0 t1 Hbefore Hfrom) as Hid.
  destruct (identical t0 t1) eqn:Hi.
  - destruct t0 as [j | ? ? ?]; [| discriminate].
    apply merge_rest_result in Hm. destruct Hm; discriminate.
  - discriminate.
Qed.

Lemma typeOf_nested_only_singleton_witness :
  List.length [JArray [JNumber 1; JNumber 2]] = 1.
Proof.
  apply (typeOf_nested_only_singleton
           [JArray [JNumber 1; JNumber 2]] 0 2 1 0 NumberType (Some 2) (Some 1)).
  reflexivity.
Defined.

(** ** What toString returns *)

Lemma toString_array (items : list JSValue) :
  toString (JArray items) = JSON_stringify (JArray items).
Proof. reflexivity. Qed.

Lemma toString_object (props : list (string * JSValue)) :
  toString (JObject props) = JSON_stringify (JObject props).
Proof. reflexivity. Qed.

Lemma lookup_In (key : string) (props : list (string * JSValue)) (x : JSValue) :
  lookup key props = Some x -> In (key, x) props.
Proof.
  induction props as [| [k y] props IH]; simpl; [discriminate |].
  destruct (k =? key) eqn:E.
  - intros H. injection H as ->. apply String.eqb_eq in E. subst. now left.
  - intros H. right. now apply IH.
Qed.

Lemma mapO_returns {A B : Type} (f : A -> Outcome B) (l : list A) :
  Forall (fun x => exists y, f x = Normal y) l ->
  exists ys, mapO f l = Normal ys.
Proof.
  induction 1 as [| x l [y Hy] _ [ys IH]]; simpl.
  - eauto.
  - rewrite Hy. simpl. rewrite IH. simpl. eauto.
Qed.

(** JSON.stringify has a text for every Value of the grammar. *)
Lemma SerializeJSONProperty_of_Value (v : JSValue) :
  ValueGrammar v -> exists s, SerializeJSONProperty v = Normal (Some s).
Proof.
  unfold ValueGrammar.
  induction v as [ | | b | x | s | d | src | c str json | items IH | props IH | z]
    using JSValue_tree_ind; intros Hv; inversion Hv; subst;
    try (eexists; reflexivity); try discriminate.
  - rewrite SerializeJSONProperty_array.
    match goal with
    | |- context [mapO ?f items] =>
        destruct (mapO_returns f items) as [texts ->]; [| simpl; eauto]
    end.
    apply Forall_forall. intros item Hin.
    destruct (proj1 (Forall_forall _ items) IH item Hin) as [text ->].
    + now apply (proj1 (Forall_forall _ items) H0 item Hin).
    + simpl. eauto.
  - rewrite SerializeJSONProperty_object.
    assert (match lookup "toJSON" props with
            | Some (JFunction _) => False
            | _ => True
            end) as Hmethod.
    { destruct (lookup "toJSON" props) as [m |] eqn:E; [| exact I].
      apply lookup_In in E.
      pose proof (proj1 (Forall_forall _ props) H0 _ E) as Hm. simpl in Hm.
      destruct m; try exact I. inversion Hm. }
    match goal with
    | |- context [mapO ?f props] =>
        destruct (mapO_returns f props) as [members Hmembers]
    end.
    { apply Forall_forall. intros kv Hin.
      destruct (proj1 (Forall_forall _ props) IH kv Hin) as [text ->].
      + now apply (proj1 (Forall_forall _ props) H0 kv Hin).
      + simpl. eauto. }
    rewrite Hmembers.
    destruct (lookup "toJSON" props) as [m |]; [| simpl; eauto].
    destruct m; try contradiction; simpl; eauto.
Qed.

(** X6: on every Value of the grammar (null, a primitive string, boolean or
    number, a wrapper, an array of Values, a plain object of Values)
    [toString] returns a string; on undefined, on a symbol and on a function
    it returns undefined, where JSON.stringify has no text to give; on a
    BigInt it throws a TypeError. *)
Theorem toString_result :
  (forall v, ValueGrammar v -> exists s, toString v = Normal (JString s))
  /\ (forall v, without_json_text v = true -> toString v = Normal JUndefined)
  /\ (forall z, toString (JBigInt z) = Throw TypeError).
Proof.
  split; [| split].
  - intros v Hv.
    pose proof (SerializeJSONProperty_of_Value v Hv) as [text Htext].
    unfold ValueGrammar in Hv.
    destruct v as [ | | b | x | s | d | src | c str json | items | props | z];
      inversion Hv; subst; try discriminate;
      try (eexists; reflexivity).
    + destruct c; try discriminate; eexists; reflexivity.
    + rewrite toString_array. unfold JSON_stringify. rewrite Htext.
      simpl. eauto.
    + rewrite toString_object. unfold JSON_stringify. rewrite Htext.
      simpl. eauto.
  - intros v Hv. destruct v; try discriminate; reflexivity.
  - reflexivity.
Qed.

Lemma toString_result_witness :
  exists s,
    toString (JObject [("toJSON", JNumber 1);
                       ("c", JArray [JInstance ClsCollator "c" "{}"])])
    = Normal (JString s).
Proof.
  apply (proj1 toString_result).
  apply Grammar_mapping.
  repeat (apply Forall_cons || apply Forall_nil); simpl.
  - apply Grammar_number.
  - apply Grammar_array. repeat (apply Forall_cons || apply Forall_nil).
    now apply Grammar_wrapper.
Defined.

(** X7: [toString] does not tell every two Values apart.  A number and the
    string that spells it, a boolean and the string that spells it, null
    and the empty string, and a Color, Formatted, Padding or ResolvedImage
    and the string it prints as, all get one string; inside an array a
    number that is not finite gets the text of null. *)
Theorem toString_collisions :
  (forall x, toString (JNumber x) = toString (JString (Number_toString x)))
  /\ (forall b,
         toString (JBoolean b)
         = toString (JString (if b then "true" else "false")))
  /\ toString JNull = toString (JString "")
  /\ (forall c str json,
         c = ClsColor \/ c = ClsFormatted \/ c = ClsPadding
         \/ c = ClsResolvedImage ->
         toString (JInstance c str json) = toString (JString str))
  /\ (forall x before after,
         Number_isFinite x = false ->
         toString (JArray (before ++ JNumber x :: after)%list)
         = toString (JArray (before ++ JNull :: after)%list)).
Proof.
  split; [reflexivity |]. split; [reflexivity |]. split; [reflexivity |].
  split.
  - intros c str json [-> | [-> | [-> | ->]]]; reflexivity.
  - intros x before after Hx. rewrite !toString_array.
    unfold JSON_stringify. rewrite !SerializeJSONProperty_array.
    match goal with
    | |- context [mapO ?f (before ++ JNumber x :: after)%list] =>
        assert (mapO f (before ++ JNumber x :: after)%list
                = mapO f (before ++ JNull :: after)%list) as ->;
          [| reflexivity]
    end.
    induction before as [| item before IH]; simpl.
    + now rewrite Hx.
    + now rewrite IH.
Qed.

Lemma toString_collisions_witness :
  toString (JInstance ClsPadding "1,2,3,4" "{}") = toString (JString "1,2,3,4")
  /\ toString (JArray ([JNumber 1] ++ JNumber nan :: [JNumber 2])%list)
     = toString (JArray ([JNumber 1] ++ JNull :: [JNumber 2])%list).
Proof.
  split.
  - apply (proj1 (proj2 (proj2 (proj2 toString_collisions)))
                 ClsPadding "1,2,3,4" "{}").
    right. right. left. reflexivity.
  - apply (proj2 (proj2 (proj2 (proj2 toString_collisions)))
                 nan [JNumber 1] [JNumber 2]).
    reflexivity.
Defined.

(** ** isValue and the leaves of a value *)



(** ** validateRGBA on numbers that are not finite *)

Lemma validateRGBA_null_inv (r g b a : JSValue) :
  validateRGBA r g b a = Normal JNull ->
  (channel_ok r /\ channel_ok g /\ channel_ok b) /\ alpha_ok a.
Proof.
  intros H.
  destruct (channels_dec r g b) as [Hc | Hc].
  - split; [exact Hc |].
    destruct (alpha_dec a) as [Ha | Ha]; [exact Ha |].
    rewrite (validateRGBA_alpha_branch r g b a Hc Ha) in H.
    now apply bindO_message_not_null in H.
  - rewrite (validateRGBA_rgb_branch r g b a Hc) in H.
    now apply bindO_message_not_null in H.
Qed.

Lemma not_finite_out_of_range (lo hi x : float) :
  In x [nan; infinity; neg_infinity] ->
  In (lo, hi) [(0%float, 255%float); (0%float, 1%float)] ->
  ~ in_closed_range lo hi x.
Proof.
  unfold in_closed_range.
  intros [<- | [<- | [<- | []]]] [E | [E | []]]; injection E as <- <-;
    intros [H1 H2]; vm_compute in H1, H2; discriminate.
Qed.

(** X9: a NaN, an Infinity or a -Infinity in any of the four positions is
    never accepted: [validateRGBA] does not return null. *)
Theorem validateRGBA_rejects_not_finite (r g b a : JSValue) (x : float) :
  In x [nan; infinity; neg_infinity] ->
  In (JNumber x) [r; g; b; a] ->
  validateRGBA r g b a <> Normal JNull.
Proof.
  intros Hx Hin H. apply validateRGBA_null_inv in H.
  destruct H as ((Hr & Hg & Hb) & Ha).
  assert (forall v, channel_ok v -> v <> JNumber x) as Hch.
  { intros v (y & -> & Hy) E. injection E as ->.
    apply (not_finite_out_of_range 0 255 x); simpl; auto. }
  destruct Hin as [E | [E | [E | [E | []]]]]; subst.
  - now apply (Hch _ Hr).
  - now apply (Hch _ Hg).
  - now apply (Hch _ Hb).
  - destruct Ha as [E | (y & E & Hy)]; [discriminate |].
    injection E as ->.
    apply (not_finite_out_of_range 0 1 y); simpl; auto.
Qed.

Lemma validateRGBA_rejects_not_finite_witness :
  In (JNumber nan) [JNumber 0; JNumber 0; JNumber 0; JNumber nan]
  /\ validateRGBA (JNumber 0) (JNumber 0) (JNumber 0) (JNumber nan)
     <> Normal JNull.
Proof.
  split.
  - right. right. right. left. reflexivity.
  - apply (validateRGBA_rejects_not_finite
             (JNumber 0) (JNumber 0) (JNumber 0) (JNumber nan) nan).
    + left. reflexivity.
    + right. right. right. left. reflexivity.
Defined.


(** * Properties of the interaction layer *)

Module InteractionFacts.
Import Interaction.

Section Facts.
Context {Point LngLat : Type}.
Variable unproject : Point -> LngLat.
Variable equals : Point -> option Point -> Completion bool.

Lemma run_cons (m : Machine Point) (i : Input Point) (rest : list (Input Point)) :
  run unproject equals m (i :: rest) =
  (fst (run unproject equals (fst (step unproject equals m i)) rest),
   (snd (step unproject equals m i) ++ snd (run unproject equals (fst (step unproject equals m i)) rest))%list).
Proof.
  cbn [run].
  destruct (step unproject equals m i) as [m1 out1]. cbn [fst snd].
  destruct (run unproject equals m1 rest) as [m2 out2]. reflexivity.
Qed.

Lemma filter_out_only (id : positive) :
  filter (fun t => negb (Pos.eqb t id)) [id] = [].
Proof. simpl. now rewrite Pos.eqb_refl. Qed.

Lemma step_keeps_timers (m : Machine Point) (i : Input Point) :
  timers_follow_tapped m -> timers_follow_tapped (fst (step unproject equals m i)).
Proof.
  unfold timers_follow_tapped. intros H.
  destruct i as [e | e r p | e | e | e p r | e | | id]; simpl; try exact H.
  - unfold _onTouchStart. destruct (touches e) as [n |]; [| exact H].
    destruct (Nat.ltb 1 n); [exact H |].
    destruct (_tapped m) as [id |] eqn:E; simpl.
    + rewrite H. apply filter_out_only.
    + now rewrite H.
  - unfold _onClick. destruct (equals (mousePos e) (_startPos m)) as [[|] | err];
      exact H.
  - unfold _onMouseMove. destruct (p || r); [exact H |].
    destruct (climb (_el m) (path e)) as [t |]; [| exact H].
    destruct (Nat.eqb t (_el m)); exact H.
  - destruct (existsb (Pos.eqb id) (pending m)) eqn:E; [| exact H].
    simpl. rewrite H in *. destruct (_tapped m) as [id' |]; [| discriminate].
    simpl in E. rewrite orb_false_r in E. apply Pos.eqb_eq in E. subst id'.
    apply filter_out_only.
Qed.

(** X10: along every sequence of events and timer expiries, the pending
    tap timers are exactly the one [_tapped] holds, if it holds one: the
    timer that [_onTouchStart] clears is pending, and a timer that expires
    is the one of the tap in progress. *)
Theorem run_keeps_timers (inputs : list (Input Point)) (m : Machine Point) :
  timers_follow_tapped m -> timers_follow_tapped (fst (run unproject equals m inputs)).
Proof.
  revert m. induction inputs as [| i rest IH]; intros m H.
  - exact H.
  - rewrite run_cons. simpl. apply IH. now apply step_keeps_timers.
Qed.

Lemma one_finger_touchstart (m : Machine Point) (e : Event Point) :
  one_finger e ->
  step unproject equals m (touchstart e) =
  match _tapped m with
  | None =>
      ({| _el := _el m; _startPos := _startPos m;
          _contextMenuFired := _contextMenuFired m;
          _tapped := Some (next_timer m);
          pending := next_timer m :: pending m;
          next_timer := Pos.succ (next_timer m) |}, [])
  | Some id =>
      ({| _el := _el m; _startPos := _startPos m;
          _contextMenuFired := _contextMenuFired m;
          _tapped := None;
          pending := filter (fun t => negb (Pos.eqb t id)) (pending m);
          next_timer := next_timer m |},
       [_fireEvent unproject "dblclick" e])
  end.
Proof.
  intros (n & Hn & Hle). simpl. unfold _onTouchStart. rewrite Hn.
  assert (Nat.ltb 1 n = false) as -> by (apply Nat.ltb_ge; lia).
  reflexivity.
Qed.

Lemma taps_from (es : list (Event Point)) :
  Forall one_finger es ->
  forall m,
    snd (run unproject equals m (map (@touchstart Point) es)) =
    map (_fireEvent unproject "dblclick")
        (every_second (match _tapped m with Some _ => true | None => false end) es)
    /\ (match _tapped (fst (run unproject equals m (map (@touchstart Point) es))) with
        | Some _ => true
        | None => false
        end
        = xorb (match _tapped m with Some _ => true | None => false end)
               (Nat.odd (List.length es))).
Proof.
  induction 1 as [| e es He _ IH]; intros m.
  - simpl. now destruct (_tapped m).
  - cbn [map]. rewrite run_cons. rewrite (one_finger_touchstart m e He).
    cbn [List.length]. rewrite Nat.odd_succ, <- Nat.negb_odd.
    destruct (_tapped m) as [id |]; cbn [fst snd every_second];
      match goal with
      | |- context [run unproject equals ?m1 _] => destruct (IH m1) as [Hout Htap]
      end;
      cbn [_tapped] in Hout, Htap; rewrite Hout, Htap;
      split; try reflexivity; now destruct (Nat.odd (List.length es)).
Qed.

(** X11: when no tap is in progress, a run of one-finger [touchstart]
    events with no timer expiry in between fires a [dblclick] for every
    second one and fires nothing else: half of them, rounded down.  A tap is
    left in progress exactly when their number is odd. *)
Theorem taps_pair_up (m : Machine Point) (es : list (Event Point)) :
  _tapped m = None ->
  Forall one_finger es ->
  snd (run unproject equals m (map (@touchstart Point) es)) =
  map (_fireEvent unproject "dblclick") (every_second false es)
  /\ List.length (snd (run unproject equals m (map (@touchstart Point) es)))
     = Nat.div2 (List.length es)
  /\ (_tapped (fst (run unproject equals m (map (@touchstart Point) es))) = None
      <-> Nat.even (List.length es) = true).
Proof.
  intros Hm Hes. destruct (taps_from es Hes m) as [Hout Htap].
  rewrite Hm in Hout, Htap. split; [exact Hout |]. split.
  - rewrite Hout, length_map. clear.
    assert (forall l : list (Event Point),
               List.length (every_second false l) = Nat.div2 (List.length l)
               /\ List.length (every_second true l)
                  = Nat.div2 (S (List.length l))) as H.
    { induction l as [| e l [IH1 IH2]]; [split; reflexivity |].
      split; cbn [every_second List.length]; [exact IH2 |].
      now rewrite IH1. }
    apply H.
  - simpl in Htap. rewrite <- Nat.negb_odd.
    destruct (_tapped (fst (run unproject equals m (map (@touchstart Point) es))));
      destruct (Nat.odd (List.length es)); simpl in *;
      split; congruence.
Qed.

Lemma fired_count_app (type : string) (a b : list (Output Point LngLat)) :
  List.length (filter (fired_as type) (a ++ b)%list)
  = List.length (filter (fired_as type) a)
    + List.length (filter (fired_as type) b).
Proof. now rewrite filter_app, length_app. Qed.

Lemma contextmenu_step (m : Machine Point) (i : Input Point) :
  List.length (filter (fired_as "contextmenu") (snd (step unproject equals m i)))
  + Nat.b2n (_contextMenuFired (fst (step unproject equals m i)))
  <= Nat.b2n (is_contextmenu i) + Nat.b2n (_contextMenuFired m).
Proof.
  destruct i as [e | e r p | e | e | e p r | e | | id]; simpl.
  - lia.
  - destruct (_contextMenuFired m), r, p; simpl; lia.
  - unfold _onTouchStart. destruct (touches e) as [n |]; simpl; [| lia].
    destruct (Nat.ltb 1 n); simpl; [lia |].
    destruct (_tapped m); simpl; lia.
  - unfold _onClick. destruct (equals (mousePos e) (_startPos m)) as [[|] | err];
      simpl; lia.
  - unfold _onMouseMove. destruct (p || r); simpl; [lia |].
    destruct (climb (_el m) (path e)) as [t |]; simpl; [| lia].
    destruct (Nat.eqb t (_el m)); simpl; lia.
  - lia.
  - destruct (_contextMenuFired m); simpl; lia.
  - destruct (existsb (Pos.eqb id) (pending m)); simpl; lia.
Qed.

(** X12: along every sequence of inputs, the [contextmenu] events fired to
    the map, plus one if a native one is still waiting for its [mouseup],
    are never more than the native [contextmenu] events received, plus one
    if one was waiting at the start: each native event is passed on at most
    once. *)
Theorem contextmenu_at_most_once (inputs : list (Input Point)) (m : Machine Point) :
  List.length (filter (fired_as "contextmenu") (snd (run unproject equals m inputs)))
  + Nat.b2n (_contextMenuFired (fst (run unproject equals m inputs)))
  <= List.length (filter is_contextmenu inputs)
     + Nat.b2n (_contextMenuFired m).
Proof.
  revert m. induction inputs as [| i rest IH]; intros m.
  - simpl. lia.
  - rewrite run_cons. cbn [fst snd filter].
    rewrite fired_count_app.
    pose proof (contextmenu_step m i) as Hs.
    pose proof (IH (fst (step unproject equals m i))) as Hr.
    destruct (is_contextmenu i); cbn [List.length Nat.b2n] in *; lia.
Qed.

Lemma step_startPos (m : Machine Point) (i : Input Point) :
  _startPos (fst (step unproject equals m i)) = last_mousedown (_startPos m) [i].
Proof.
  destruct i as [e | e r p | e | e | e p r | e | | id]; simpl; try reflexivity.
  - unfold _onTouchStart. destruct (touches e) as [n |]; [| reflexivity].
    destruct (Nat.ltb 1 n); [reflexivity |].
    now destruct (_tapped m).
  - unfold _onClick. now destruct (equals (mousePos e) (_startPos m)) as [[|] | err].
  - unfold _onMouseMove. destruct (p || r); [reflexivity |].
    destruct (climb (_el m) (path e)) as [t |]; [| reflexivity].
    now destruct (Nat.eqb t (_el m)).
  - now destruct (existsb (Pos.eqb id) (pending m)).
Qed.

Lemma run_startPos (inputs : list (Input Point)) (m : Machine Point) :
  _startPos (fst (run unproject equals m inputs)) = last_mousedown (_startPos m) inputs.
Proof.
  revert m. induction inputs as [| i rest IH]; intros m; [reflexivity |].
  rewrite run_cons. cbn [fst]. rewrite IH, step_startPos.
  destruct i; reflexivity.
Qed.

(** X13: after any sequence of inputs, a [click] is passed on to the map
    exactly when the [equals] method of its position accepts the position
    of the last [mousedown] (undefined if there was none); when [equals]
    refuses nothing is fired, and when it throws the exception leaves the
    listener.  No other event in between changes what a click is compared
    with. *)
Theorem click_compares_with_last_mousedown
        (inputs : list (Input Point)) (m : Machine Point) (e : Event Point) :
  step unproject equals (fst (run unproject equals m inputs)) (click e) =
  (fst (run unproject equals m inputs),
   match equals (mousePos e) (last_mousedown (_startPos m) inputs) with
   | Normal true => [_fireEvent unproject "click" e]
   | Normal false => []
   | Throw error => [uncaught error]
   end).
Proof.
  simpl. unfold _onClick. rewrite run_startPos.
  now destruct (equals (mousePos e) (last_mousedown (_startPos m) inputs))
    as [[|] | err].
Qed.

Lemma climb_In (el : Node) (chain : list Node) :
  climb el chain = Some el <-> In el chain.
Proof.
  induction chain as [| t parents IH]; simpl.
  - split; [discriminate | tauto].
  - destruct (Nat.eqb t el) eqn:E.
    + apply Nat.eqb_eq in E. subst t. split; auto.
    + apply Nat.eqb_neq in E. rewrite IH. split; [auto | intros [H | H]; tauto].
Qed.

Lemma climb_found (el : Node) (chain : list Node) (t : Node) :
  climb el chain = Some t -> t = el.
Proof.
  induction chain as [| u parents IH]; simpl; [discriminate |].
  destruct (Nat.eqb u el) eqn:E; [| exact IH].
  intros H. injection H as <-. now apply Nat.eqb_eq.
Qed.

(** X14: a [mousemove] is passed on to the map exactly when neither drag
    handler is active and the element is the event's target or one of its
    ancestors; otherwise nothing is fired.  The state is left as it was. *)
Theorem mousemove_inside_and_idle
        (m : Machine Point) (e : Event Point) (dragPan_active dragRotate_active : bool) :
  fst (step unproject equals m (mousemove e dragPan_active dragRotate_active)) = m
  /\ (dragPan_active = false /\ dragRotate_active = false
      /\ In (_el m) (path e) ->
      snd (step unproject equals m (mousemove e dragPan_active dragRotate_active))
      = [_fireEvent unproject "mousemove" e])
  /\ (dragPan_active = true \/ dragRotate_active = true
      \/ ~ In (_el m) (path e) ->
      snd (step unproject equals m (mousemove e dragPan_active dragRotate_active)) = []).
Proof.
  simpl. unfold _onMouseMove.
  destruct (climb (_el m) (path e)) as [t |] eqn:E.
  - pose proof (climb_found _ _ _ E) as ->.
    pose proof (proj1 (climb_In _ _) E) as Hin.
    rewrite Nat.eqb_refl.
    destruct dragPan_active, dragRotate_active; simpl;
      repeat split; try reflexivity;
      try (intros (H1 & H2 & _); discriminate);
      intros [H | [H | H]]; try discriminate; contradiction.
  - assert (~ In (_el m) (path e)) as Hout.
    { intros H. apply climb_In in H. congruence. }
    destruct dragPan_active, dragRotate_active; simpl;
      repeat split; try reflexivity;
      try (intros (H1 & H2 & H3); try discriminate; contradiction).
Qed.
End Facts.

Lemma run_keeps_timers_witness :
  timers_follow_tapped
    (fst (run (fun p => p) pixel_equals (create 3 5)
              [touchstart (tap_at 1 1); timeout 5;
               touchstart (tap_at 1 1)])).
Proof.
  apply (run_keeps_timers (fun p => p) pixel_equals).
  reflexivity.
Defined.

Lemma taps_pair_up_witness :
  snd (run (fun p => p) pixel_equals (create 3 5)
           (map (@touchstart (Z * Z)) [tap_at 1 1; tap_at 2 2; tap_at 3 3]))
  = map (_fireEvent (fun p => p) "dblclick")
        (every_second false [tap_at 1 1; tap_at 2 2; tap_at 3 3])
  /\ List.length
       (snd (run (fun p => p) pixel_equals (create 3 5)
                 (map (@touchstart (Z * Z)) [tap_at 1 1; tap_at 2 2; tap_at 3 3])))
     = Nat.div2 3
  /\ (_tapped (fst (run (fun p => p) pixel_equals (create 3 5)
                        (map (@touchstart (Z * Z))
                             [tap_at 1 1; tap_at 2 2; tap_at 3 3]))) = None
      <-> Nat.even 3 = true).
Proof.
  apply (taps_pair_up (fun p => p) pixel_equals (create 3 5)
                      [tap_at 1 1; tap_at 2 2; tap_at 3 3]).
  - reflexivity.
  - repeat (apply Forall_cons; [exists 1; split; [reflexivity | lia] |]).
    apply Forall_nil.
Defined.

Lemma mousemove_inside_and_idle_witness :
  snd (step (fun p => p) pixel_equals (create 3 5)
            (mousemove (tap_at 4 4) false false))
  = [_fireEvent (fun p => p) "mousemove" (tap_at 4 4)].
Proof.
  apply (proj1 (proj2 (mousemove_inside_and_idle
                         (fun p => p) pixel_equals (create 3 5)
                         (tap_at 4 4) false false))).
  repeat split. simpl. auto.
Defined.
End InteractionFacts.
